(** * ComfyUI-sonar: the node-graph adapter layer ([py/nodes.py])

    A shallow embedding of the node classes of [nodes.py] and of what they
    call, followed by the properties of the written specification that
    concern them.

    Conventions of the embedding:
    - a Python [float] is a binary64 number ([PrimFloat.float]); the tests
      [x == 0.0] and [x != 0] are [PrimFloat.eqb], so that [-0.0] counts as
      zero and a NaN does not, as in Python;
    - a Python [int] is a [Z]; a [str] is a [string]; a [dict] with string
      keys is a [gmap string _];
    - a function that reads or writes process-wide state, or that may raise,
      is a computation in the monad [Py S], which threads a state of type [S]
      and keeps the state reached when an exception is raised;
    - mutable objects that are shared between nodes (noise chains) live in an
      explicit object store and are named by their address. *)

From Stdlib Require Import Floats ZArith List Bool Lia.
From stdpp Require Import gmap strings list sorting.

Local Open Scope string_scope.
Local Open Scope list_scope.
Local Open Scope Z_scope.

(** ** Exceptions and the state-and-exception monad *)

Inductive exn : Type :=
  | ValueError (msg : string)
  | NotImplementedError (msg : string)
  | KeyError (key : string)
  | TypeError (msg : string)
  | AttributeError (name : string)
  | IndexError
  | ZeroDivisionError
  | RuntimeError (msg : string)
  | SyntaxError (msg : string).

Inductive result (A : Type) : Type :=
  | Ok (a : A)
  | Raise (e : exn).
Arguments Ok {A} a.
Arguments Raise {A} e.

Definition is_ok {A} (r : result A) : bool :=
  match r with Ok _ => true | Raise _ => false end.

Definition Py (S A : Type) : Type := S -> result A * S.

Definition ret {S A} (a : A) : Py S A := fun s => (Ok a, s).

Definition bind {S A B} (m : Py S A) (k : A -> Py S B) : Py S B :=
  fun s =>
    match m s with
    | (Ok a, s') => k a s'
    | (Raise e, s') => (Raise e, s')
    end.

Definition raise {S A} (e : exn) : Py S A := fun s => (Raise e, s).

Definition lift_result {S A} (r : result A) : Py S A := fun s => (r, s).

(** [try: body finally: handler]: the handler runs on the state the body
    left, whether the body returned or raised; an exception of the handler
    replaces the outcome of the body. *)
Definition try_finally {S A} (body : Py S A) (handler : Py S unit) : Py S A :=
  fun s =>
    let (r, s1) := body s in
    match handler s1 with
    | (Ok _, s2) => (r, s2)
    | (Raise e, s2) => (Raise e, s2)
    end.

Declare Scope py_scope.
Delimit Scope py_scope with py.
Notation "x <- c ;; k" := (bind c (fun x => k))
  (at level 100, c at next level, right associativity) : py_scope.
Notation "c ;;; k" := (bind c (fun _ => k))
  (at level 100, right associativity) : py_scope.

(** [tuple(f(i) for i in items)]: the calls are made from left to right and
    the first exception ends the iteration. *)
Fixpoint for_each {S A B} (f : A -> Py S B) (items : list A) : Py S (list B) :=
  match items with
  | [] => ret []
  | a :: rest =>
      (b <- f a ;; bs <- for_each f rest ;; ret (b :: bs))%py
  end.

(** ** The tensors of the host, as far as the nodes look into them *)

Module Torch.

Inductive dtype : Type := float16 | bfloat16 | float32 | float64.
Inductive layout : Type := strided | sparse_coo | sparse_csr.
Inductive device : Type := cpu | cuda.

Definition layout_eqb (a b : layout) : bool :=
  match a, b with
  | strided, strided | sparse_coo, sparse_coo | sparse_csr, sparse_csr => true
  | _, _ => false
  end.

(** [type(l).__name__]: every layout is an instance of [torch.layout]. *)
Definition layout_name (l : layout) : string := "layout".

(** A tensor: its shape (the first dimension is the batch), its element
    type, storage layout and device, and its elements in row-major
    order. *)
Record tensor : Type := {
  shape : list nat;
  t_dtype : dtype;
  t_layout : layout;
  t_device : device;
  data : list float
}.

Definition numel_of (sh : list nat) : nat := foldr Nat.mul 1%nat sh.

(** [torch.zeros(shape, dtype=, layout=, device=)] *)
Definition zeros (sh : list nat) (dt : dtype) (ly : layout) (dv : device) : tensor :=
  {| shape := sh; t_dtype := dt; t_layout := ly; t_device := dv;
     data := repeat 0%float (numel_of sh) |}.

(** [t[i].unsqueeze(0)]: example [i] of the batch, as a batch of one. *)
Definition example (t : tensor) (i : nat) : tensor :=
  let stride := numel_of (tail (shape t)) in
  {| shape := 1%nat :: tail (shape t);
     t_dtype := t_dtype t; t_layout := t_layout t; t_device := t_device t;
     data := take stride (drop (i * stride) (data t)) |}.

(** [t.to_sparse()] *)
Definition to_sparse (t : tensor) : tensor :=
  {| shape := shape t; t_dtype := t_dtype t; t_layout := sparse_coo;
     t_device := t_device t; data := data t |}.

Definition same_tail (t u : tensor) : bool :=
  bool_decide (tail (shape t) = tail (shape u)).

(** [torch.cat(ts, dim=0)]: an empty sequence is refused, and so are
    tensors that differ in a dimension other than the first. *)
Definition cat (ts : list tensor) : result tensor :=
  match ts with
  | [] => Raise (RuntimeError "torch.cat(): expected a non-empty list of Tensors")
  | t :: rest =>
      if forallb (same_tail t) rest then
        Ok {| shape := foldr (fun u n => (hd 0%nat (shape u) + n)%nat) 0%nat ts
                         :: tail (shape t);
              t_dtype := t_dtype t; t_layout := t_layout t;
              t_device := t_device t;
              data := concat (map data ts) |}
      else Raise (RuntimeError "Sizes of tensors must match except in dimension 0")
  end.

End Torch.

Import Torch.

(** ** Values that travel through keyword arguments and option dictionaries *)

(** Where a noise sampler comes from: [custom_noise.make_noise_sampler] of a
    custom noise object, or [noise.get_noise_sampler] of a [NoiseType]
    member (named by its upper-case name). *)
Inductive noise_source : Type :=
  | OfCustomNoise (custom_noise : nat)
  | OfNoiseType (member : string).

#[warnings="-register-all"]
Inductive pyval : Type :=
  | PNone
  | PBool (b : bool)
  | PInt (z : Z)
  | PFloat (f : float)
  | PStr (s : string)
  | PTensor (t : tensor)
  | PNoiseType (member : string)
  | PCustomNoise (custom_noise : nat)
  | PObject (id : nat)
  | PSigmas (sigmas : list float)
  | PDict (d : gmap string pyval)
  (** the callable that [make_noise_sampler(x, sigma_min, sigma_max, seed=,
      cpu=, normalized=)] or [get_noise_sampler(noise_type, x, ...)] returns *)
  | PNoiseSampler (src : noise_source) (x : tensor) (sigma_min sigma_max : float)
      (seed cpu normalized : pyval)
  (** [samplers.KSAMPLER(sampler_function, extra_options=, inpaint_options=)];
      the step function is known by its name and by the parameters its
      signature declares *)
  | PSampler (fn_name : string) (params : list string)
      (extra_options inpaint_options : gmap string pyval).

(** [v is None] *)
Definition is_none (v : pyval) : bool :=
  match v with PNone => true | _ => false end.

(** [v == s] for a string literal [s]: only a string compares equal to it. *)
Definition eq_str (v : pyval) (s : string) : bool :=
  match v with PStr s' => String.eqb s' s | _ => false end.

(** ** What the adapter layer calls without defining it

    The generators of random numbers, the noise samplers of [noise.py], the
    scaling utility of [noise_generation.py], the reference-latent
    preparation of [sonar.py], and the few operations of the host and of the
    sibling plugin whose results the nodes only pass on. *)

(** The generators of the process. [torch.random.get_rng_state] and
    [set_rng_state] read and write the default generator of the CPU only,
    while [torch.manual_seed] seeds the generators of all devices. *)
Record process (R : Type) : Type := {
  torch_rng : R;   (** the default (CPU) generator behind [torch.random] *)
  device_rng : R;  (** the generators of the accelerators *)
  random_rng : R   (** the generator behind Python's [random] module *)
}.
Arguments torch_rng {R} p.
Arguments device_rng {R} p.
Arguments random_rng {R} p.

(** A noise sampler: the callable that the constructors of [noise.py]
    return. It is called with [(sigma, sigma_next)], may use and advance the
    generators, and may raise. *)
Definition sampler_of (R : Type) : Type :=
  option float -> option float -> Py (process R) tensor.

(** A model object of the host: a wrapper exposes its inner model as the
    attribute [model]; a base model has no such attribute and carries
    [latent_format.scale_factor]. *)
Inductive model_obj : Type :=
  | ModelWrapper (model : model_obj)
  | BaseModel (id : nat) (scale_factor : float).

Class Env : Type := {
  rng_state : Type;
  (** the generator states that [torch.manual_seed(s)] leaves behind, on the
      CPU and on the accelerators, and the one that [random.seed(s)] leaves *)
  torch_seeded : Z -> rng_state;
  device_seeded : Z -> rng_state;
  random_seeded : Z -> rng_state;
  (** what [t.to(dtype=dt)] makes of an element: its rounding to [dt] *)
  cast : dtype -> float -> float;
  (** the product of an element of a tensor of the given element type by a
      Python number, as torch computes it in that type *)
  scalar_mul : dtype -> float -> float -> float;
  (** a custom noise object, as the sampling side sees it *)
  custom_noise : Type;
  (** the members of the enumeration [NoiseType], and [NoiseType[name.upper()]] *)
  NoiseType : Type;
  NoiseType_getitem : string -> option NoiseType;
  (** [custom_noise.make_noise_sampler(x, sigma_min, sigma_max, seed=, cpu=,
      normalized=)]; an argument the caller leaves out is [None] here.
      Building the sampler is a call into [noise.py]: it may itself use and
      advance the generators, and may raise. *)
  make_noise_sampler :
    custom_noise -> tensor -> option float -> option float ->
    option Z -> option bool -> option bool ->
    Py (process rng_state) (sampler_of rng_state);
  (** [noise.get_noise_sampler(noise_type, x, sigma_min, sigma_max, seed=, cpu=)] *)
  get_noise_sampler :
    NoiseType -> tensor -> option float -> option float ->
    option Z -> bool ->
    Py (process rng_state) (sampler_of rng_state);
  (** [scale_noise(t, multiplier, normalized=)]; no multiplier is [None] *)
  scale_noise : tensor -> option float -> bool -> tensor;
  (** [samplers.Sampler().max_denoise(SimpleNamespace(inner_model=m), sigmas)] *)
  max_denoise : model_obj -> list float -> bool;
  (** [float(torch.sqrt(1.0 + s ** 2.0))] for an element [s] of the sigmas
      tensor: torch evaluates the expression in the element type of that
      tensor, and [float] converts the outcome exactly *)
  sqrt_one_plus_square : float -> float;
  (** [result += latent.repeat(n, 1, ..., 1).to(result)] *)
  add_repeated : tensor -> tensor -> Z -> result tensor;
  (** [model.get_model_object("model_sampling").percent_to_sigma(p)] *)
  percent_to_sigma : model_obj -> float -> float;
  (** [SonarGuidanceMixin.prepare_ref_latent(t)] *)
  prepare_ref_latent : tensor -> tensor;
  (** of the sibling plugin "bleh": a frequency filter, the table
      [FILTER_PRESETS], and what [ast.literal_eval] makes of a bracketed
      coefficient list *)
  ffilter : Type;
  FILTER_PRESETS : string -> option ffilter;
  literal_eval_list : string -> result ffilter;
  (** [s.strip()] *)
  strip : string -> string
}.

(** [t.to(device="cpu", dtype=dt)]: every element is rounded to [dt]. *)
Definition to_cpu `{Env} (t : tensor) (dt : dtype) : tensor :=
  {| shape := shape t; t_dtype := dt; t_layout := t_layout t;
     t_device := cpu; data := map (cast dt) (data t) |}.

(** [t.mul_(m)] *)
Definition mul_ `{Env} (t : tensor) (m : float) : tensor :=
  {| shape := shape t; t_dtype := t_dtype t; t_layout := t_layout t;
     t_device := t_device t;
     data := map (fun x => scalar_mul (t_dtype t) x m) (data t) |}.

(** ** The noise chains of [noise.py] *)

Module Noise.

(** The address of a chain object in the object store. *)
Definition addr : Type := nat.

Section Chains.
Context `{Env}.

(** The keyword arguments a node hands to its item class; the
    constructor names the class that [get_item_class] returns. A wrapped
    chain is held by reference. *)
Inductive item_kwargs : Type :=
  | CustomNoiseItem (noise_type : string)
  | ModulatedNoise (noise : addr) (modulation_type : string)
      (modulation_dims : Z) (modulation_strength : float)
      (normalize_result normalize_noise normalize_ref : option bool)
      (ref_latent_opt : option tensor)
  | RepeatedNoise (noise : addr) (repeat_length max_recycle : Z)
      (normalize : option bool) (permute : string)
  | ScheduledNoise (noise : addr) (start_sigma end_sigma : float)
      (normalize : option bool) (fallback_noise : option addr)
  | CompositeNoise (dst_noise src_noise : addr)
      (normalize_dst normalize_src normalize_result : option bool)
      (mask : tensor)
  | GuidedNoise (ref_latent : tensor) (guidance_factor : float)
      (noise : addr) (method : string)
      (normalize_noise normalize_result : option bool)
  | RandomNoise (noise : addr) (mix_count : Z) (normalize : option bool)
  | BlendFilterNoise (noise : addr) (blend_mode : string) (filter : ffilter)
      (ffilter_scale ffilter_strength : float) (ffilter_threshold : Z)
      (enhance_mode : string) (enhance_strength : float) (affect : string)
      (normalize_noise normalize_result : option bool).

(** Modelled from the spec: an item of a chain is a variant instance
    "wrapping the node's other parameters" together with its own factor;
    the item classes of [noise.py] are not in the sources at hand. *)
Record chain_item : Type := {
  factor : float;
  kwargs : item_kwargs
}.

(** The object store: the chain at address [a] is the [a]-th entry; a new
    object takes the next free address and no object is ever removed. *)
Definition store : Type := list (list chain_item).

Definition read (a : addr) : Py store (list chain_item) :=
  fun h =>
    match h !! a with
    | Some items => (Ok items, h)
    | None => (Raise (RuntimeError "no object at this address"), h)
    end.

Definition alloc (items : list chain_item) : Py store addr :=
  fun h => (Ok (length h), h ++ [items]).

Definition write (a : addr) (items : list chain_item) : Py store unit :=
  fun h => (Ok tt, <[a := items]> h).

(** Modelled from the spec: [CustomNoiseChain()], a new chain without
    items. [noise.py] is not in the sources at hand. *)
Definition CustomNoiseChain : Py store addr := alloc [].

(** Modelled from the spec: "[clone()] deep-copies the list so prior
    references are unaffected". *)
Definition clone (a : addr) : Py store addr :=
  (items <- read a ;; alloc items)%py.

(** Modelled from the spec: "[add(item)] appends", in place. *)
Definition add (a : addr) (item : chain_item) : Py store unit :=
  (items <- read a ;; write a (items ++ [item]))%py.

Definition total_factor (items : list chain_item) : float :=
  foldr (fun it acc => (factor it + acc)%float) 0%float items.

(** Modelled from the spec: the factors are "uniformly scaled so they sum
    to this target, preserving relative proportions", and a target of 0
    "is a no-op". The spec does not say what becomes of factors that sum
    to zero; here the binary64 quotient is taken as it comes. *)
Definition rescale_items (target : float) (items : list chain_item)
  : list chain_item :=
  if (target =? 0)%float then items
  else
    let total := total_factor items in
    map (fun it => {| factor := (factor it * target / total)%float;
                      kwargs := kwargs it |}) items.

(** Modelled from the spec: "[rescaled(target)] returns a new chain with
    proportionally scaled factors summing to [target]". *)
Definition rescaled (a : addr) (target : float) : Py store addr :=
  (items <- read a ;; alloc (rescale_items target items))%py.

End Chains.

End Noise.


(** A latent of the host: the dictionary with the key ["samples"] and,
    optionally, the key ["batch_index"]. *)
Record latent : Type := {
  samples : tensor;
  batch_index : option (list Z)
}.

(** ** The noise-composition nodes *)

Module SonarCustomNoiseNodeBase.
Section Node.
Context `{Env}.
Import Noise.

(** [go(self, factor=1.0, rescale=0.0, sonar_custom_noise_opt=None, **kwargs)].
    A chain object is an instance of a plain class, so a connected chain is
    true in the test [if sonar_custom_noise_opt]. *)
Definition go (factor rescale : float) (sonar_custom_noise_opt : option addr)
    (kwargs : item_kwargs) : Py store addr :=
  (nis <- match sonar_custom_noise_opt with
          | Some chain => clone chain
          | None => CustomNoiseChain
          end ;;
   (if negb (factor =? 0)%float
    then add nis {| Noise.factor := factor; Noise.kwargs := kwargs |}
    else ret tt) ;;;
   (if (rescale =? 0)%float then ret nis else rescaled nis rescale))%py.

End Node.
End SonarCustomNoiseNodeBase.

Module SonarCustomNoiseNode.
Section Node.
Context `{Env}.
Import Noise.

(** The inherited [go], called with the ports [factor], [rescale],
    [noise_type] and [sonar_custom_noise_opt]. *)
Definition go (factor rescale : float) (noise_type : string)
    (sonar_custom_noise_opt : option addr) : Py store addr :=
  SonarCustomNoiseNodeBase.go factor rescale sonar_custom_noise_opt
    (CustomNoiseItem noise_type).

End Node.
End SonarCustomNoiseNode.

Module SonarNormalizeNoiseNodeMixin.

(** [None if val == "default" else val == "forced"] *)
Definition get_normalize (val : pyval) : option bool :=
  if eq_str val "default" then None else Some (eq_str val "forced").

End SonarNormalizeNoiseNodeMixin.

Module SonarModulatedNoiseNode.
Section Node.
Context `{Env}.
Import Noise SonarNormalizeNoiseNodeMixin.

Definition go (factor : float) (sonar_custom_noise : addr)
    (modulation_type : string) (dims : Z) (strength : float)
    (normalize_result normalize_noise : string) (normalize_ref : bool)
    (ref_latent_opt : option latent) : Py store addr :=
  let ref_latent_opt := option_map samples ref_latent_opt in
  SonarCustomNoiseNodeBase.go factor 0%float None
    (ModulatedNoise sonar_custom_noise modulation_type dims strength
       (get_normalize (PStr normalize_result))
       (get_normalize (PStr normalize_noise))
       (get_normalize (PBool normalize_ref))
       ref_latent_opt).

End Node.
End SonarModulatedNoiseNode.

Module SonarRepeatedNoiseNode.
Section Node.
Context `{Env}.
Import Noise SonarNormalizeNoiseNodeMixin.

Definition go (factor : float) (sonar_custom_noise : addr)
    (repeat_length max_recycle : Z) (normalize permute : string)
    : Py store addr :=
  SonarCustomNoiseNodeBase.go factor 0%float None
    (RepeatedNoise sonar_custom_noise repeat_length max_recycle
       (get_normalize (PStr normalize)) permute).

End Node.
End SonarRepeatedNoiseNode.

Module SonarScheduledNoiseNode.
Section Node.
Context `{Env}.
Import Noise SonarNormalizeNoiseNodeMixin.

Definition go (model : model_obj) (factor : float) (sonar_custom_noise : addr)
    (start_percent end_percent : float) (normalize : string)
    (fallback_sonar_custom_noise : option addr) : Py store addr :=
  let start_sigma := percent_to_sigma model start_percent in
  let end_sigma := percent_to_sigma model end_percent in
  SonarCustomNoiseNodeBase.go factor 0%float None
    (ScheduledNoise sonar_custom_noise start_sigma end_sigma
       (get_normalize (PStr normalize)) fallback_sonar_custom_noise).

End Node.
End SonarScheduledNoiseNode.

Module SonarCompositeNoiseNode.
Section Node.
Context `{Env}.
Import Noise SonarNormalizeNoiseNodeMixin.

(** The keyword [normalize_dst] of the item is computed from the port
    [normalize_src], and the keyword [normalize_src] from the port
    [normalize_dst]; this is what the source writes. *)
Definition go (factor : float) (sonar_custom_noise_dst sonar_custom_noise_src : addr)
    (normalize_src normalize_dst normalize_result : string) (mask : tensor)
    : Py store addr :=
  SonarCustomNoiseNodeBase.go factor 0%float None
    (CompositeNoise sonar_custom_noise_dst sonar_custom_noise_src
       (* normalize_dst = *) (get_normalize (PStr normalize_src))
       (* normalize_src = *) (get_normalize (PStr normalize_dst))
       (* normalize_result = *) (get_normalize (PStr normalize_result))
       mask).

End Node.
End SonarCompositeNoiseNode.

Module SonarGuidedNoiseNode.
Section Node.
Context `{Env}.
Import Noise SonarNormalizeNoiseNodeMixin.

Definition go (factor : float) (lat : latent) (sonar_custom_noise : addr)
    (normalize_noise normalize_result : string) (normalize_ref : bool)
    (method : string) (guidance_factor : float) : Py store addr :=
  let ref_latent :=
    scale_noise (prepare_ref_latent (samples lat)) None normalize_ref in
  (noise <- clone sonar_custom_noise ;;
   SonarCustomNoiseNodeBase.go factor 0%float None
     (GuidedNoise ref_latent guidance_factor noise method
        (get_normalize (PStr normalize_noise))
        (get_normalize (PStr normalize_result))))%py.

End Node.
End SonarGuidedNoiseNode.

Module SonarRandomNoiseNode.
Section Node.
Context `{Env}.
Import Noise SonarNormalizeNoiseNodeMixin.

Definition go (factor : float) (sonar_custom_noise : addr) (mix_count : Z)
    (normalize : string) : Py store addr :=
  SonarCustomNoiseNodeBase.go factor 0%float None
    (RandomNoise sonar_custom_noise mix_count (get_normalize (PStr normalize))).

End Node.
End SonarRandomNoiseNode.

Module SonarBlendFilterNoiseNode.
Section Node.
Context `{Env}.
Import Noise SonarNormalizeNoiseNodeMixin.

(** [None if v == "default" else v == "forced"], written out in the body of
    this [go] before [get_normalize] is applied to its outcome. *)
Definition tri_state (v : string) : pyval :=
  if String.eqb v "default" then PNone else PBool (String.eqb v "forced").

Definition go (factor : float) (sonar_custom_noise : addr)
    (blend_mode ffilter_name ffilter_custom : string)
    (ffilter_scale ffilter_strength : float) (ffilter_threshold : Z)
    (enhance_mode : string) (enhance_strength : float) (affect : string)
    (normalize_result normalize_noise : string) : Py store addr :=
  let ffilter_custom := strip ffilter_custom in
  let normalize_result := tri_state normalize_result in
  let normalize_noise := tri_state normalize_noise in
  (filter <- lift_result
     (if negb (String.eqb ffilter_custom "")
      then literal_eval_list ffilter_custom
      else match FILTER_PRESETS ffilter_name with
           | Some f => Ok f
           | None => Raise (KeyError ffilter_name)
           end) ;;
   noise <- clone sonar_custom_noise ;;
   SonarCustomNoiseNodeBase.go factor 0%float None
     (BlendFilterNoise noise blend_mode filter ffilter_scale ffilter_strength
        ffilter_threshold enhance_mode enhance_strength affect
        (get_normalize normalize_noise) (get_normalize normalize_result)))%py.

End Node.
End SonarBlendFilterNoiseNode.

(** The host runs a node by calling the entry function that its class
    names ([FUNCTION = "go"]) with the values of its ports. *)

Module Host.
Section Call.
Context `{Env}.
Import Noise.

Inductive node_call : Type :=
  | SonarCustomNoise (factor rescale : float) (noise_type : string)
      (sonar_custom_noise_opt : option addr)
  | SonarModulatedNoise (factor : float) (sonar_custom_noise : addr)
      (modulation_type : string) (dims : Z) (strength : float)
      (normalize_result normalize_noise : string) (normalize_ref : bool)
      (ref_latent_opt : option latent)
  | SonarRepeatedNoise (factor : float) (sonar_custom_noise : addr)
      (repeat_length max_recycle : Z) (normalize permute : string)
  | SonarScheduledNoise (model : model_obj) (factor : float)
      (sonar_custom_noise : addr) (start_percent end_percent : float)
      (normalize : string) (fallback_sonar_custom_noise : option addr)
  | SonarCompositeNoise (factor : float)
      (sonar_custom_noise_dst sonar_custom_noise_src : addr)
      (normalize_src normalize_dst normalize_result : string) (mask : tensor)
  | SonarGuidedNoise (factor : float) (lat : latent) (sonar_custom_noise : addr)
      (normalize_noise normalize_result : string) (normalize_ref : bool)
      (method : string) (guidance_factor : float)
  | SonarRandomNoise (factor : float) (sonar_custom_noise : addr) (mix_count : Z)
      (normalize : string)
  | SonarBlendFilterNoise (factor : float) (sonar_custom_noise : addr)
      (blend_mode ffilter_name ffilter_custom : string)
      (ffilter_scale ffilter_strength : float) (ffilter_threshold : Z)
      (enhance_mode : string) (enhance_strength : float) (affect : string)
      (normalize_result normalize_noise : string).

Definition run (c : node_call) : Py store addr :=
  match c with
  | SonarCustomNoise factor rescale noise_type chain =>
      SonarCustomNoiseNode.go factor rescale noise_type chain
  | SonarModulatedNoise factor noise modulation_type dims strength
      normalize_result normalize_noise normalize_ref ref_latent_opt =>
      SonarModulatedNoiseNode.go factor noise modulation_type dims strength
        normalize_result normalize_noise normalize_ref ref_latent_opt
  | SonarRepeatedNoise factor noise repeat_length max_recycle normalize permute =>
      SonarRepeatedNoiseNode.go factor noise repeat_length max_recycle normalize
        permute
  | SonarScheduledNoise model factor noise start_percent end_percent normalize
      fallback =>
      SonarScheduledNoiseNode.go model factor noise start_percent end_percent
        normalize fallback
  | SonarCompositeNoise factor dst src normalize_src normalize_dst
      normalize_result mask =>
      SonarCompositeNoiseNode.go factor dst src normalize_src normalize_dst
        normalize_result mask
  | SonarGuidedNoise factor lat noise normalize_noise normalize_result
      normalize_ref method guidance_factor =>
      SonarGuidedNoiseNode.go factor lat noise normalize_noise normalize_result
        normalize_ref method guidance_factor
  | SonarRandomNoise factor noise mix_count normalize =>
      SonarRandomNoiseNode.go factor noise mix_count normalize
  | SonarBlendFilterNoise factor noise blend_mode ffilter_name ffilter_custom
      ffilter_scale ffilter_strength ffilter_threshold enhance_mode
      enhance_strength affect normalize_result normalize_noise =>
      SonarBlendFilterNoiseNode.go factor noise blend_mode ffilter_name
        ffilter_custom ffilter_scale ffilter_strength ffilter_threshold
        enhance_mode enhance_strength affect normalize_result normalize_noise
  end.

End Call.
End Host.

(** ** Loops and the few functions of NumPy the adapter uses *)

(** [for a in items: acc = body(acc, a)] *)
Fixpoint for_loop {S A B} (body : B -> A -> Py S B) (items : list A) (acc : B)
  : Py S B :=
  match items with
  | [] => ret acc
  | a :: rest => (acc' <- body acc a ;; for_loop body rest acc')%py
  end.

(** [range(n)] *)
Definition range (n : Z) : list Z := seqZ 0 n.

Fixpoint insert_unique (x : Z) (l : list Z) : list Z :=
  match l with
  | [] => [x]
  | y :: rest =>
      if x <? y then x :: l
      else if x =? y then l
      else y :: insert_unique x rest
  end.

(** The position of the first occurrence of [x] in [l]. *)
Fixpoint index_of (x : Z) (l : list Z) : nat :=
  match l with
  | [] => 0%nat
  | y :: rest => if x =? y then 0%nat else S (index_of x rest)
  end.

(** [np.unique(a, return_inverse=True)]: the distinct values in increasing
    order, and for each position of [a] the place of its value among them. *)
Definition np_unique (a : list Z) : list Z * list nat :=
  let unique := foldr insert_unique [] a in
  (unique, map (fun x => index_of x unique) a).

(** ** The adapter to the host's noise interface *)

Module CustomNOISE.
Section Adapter.
Context `{Env}.

(** The attributes that [__init__] stores. *)
Record t : Type := {
  custom_noise_ : custom_noise;
  seed : Z;
  cpu_noise : bool;
  normalize : bool;
  multiplier : float
}.

(** The state the adapter runs in: the generators, and the record of the
    noise samples drawn so far, each with the reference tensor and the seed
    it was drawn for. *)
Record world : Type := {
  generators : process rng_state;
  drawn : list (tensor * Z)
}.

(** [torch.manual_seed(s)]: the generators of all devices are seeded. *)
Definition torch_manual_seed (s : Z) : Py world unit :=
  fun w =>
    (Ok tt, {| generators := {| torch_rng := torch_seeded s;
                                device_rng := device_seeded s;
                                random_rng := random_rng (generators w) |};
               drawn := drawn w |}).

Definition random_seed (s : Z) : Py world unit :=
  fun w =>
    (Ok tt, {| generators := {| torch_rng := torch_rng (generators w);
                                device_rng := device_rng (generators w);
                                random_rng := random_seeded s |};
               drawn := drawn w |}).

(** [self.custom_noise.make_noise_sampler(latent_image, None, None, seed=seed,
    cpu=self.cpu_noise, normalized=self.normalize)(None, None)] *)
Definition draw (self : t) (latent_image : tensor) (seed : Z) : Py world tensor :=
  fun w =>
    let (r, g) :=
      (ns <- make_noise_sampler (custom_noise_ self) latent_image None None
               (Some seed) (Some (cpu_noise self)) (Some (normalize self)) ;;
       ns None None)%py (generators w) in
    (r, {| generators := g; drawn := drawn w ++ [(latent_image, seed)] |}).

Definition _sample_noise (self : t) (latent_image : tensor) (seed : Z)
  : Py world tensor :=
  (sample <- draw self latent_image seed ;;
   let result := to_cpu sample (t_dtype latent_image) in
   if negb (layout_eqb (t_layout result) (t_layout latent_image)) then
     if layout_eqb (t_layout latent_image) sparse_coo then
       ret (to_sparse result)
     else
       raise (NotImplementedError
                ("Cannot handle latent layout " ++ layout_name (t_layout latent_image))%string)
   else
     ret (if (multiplier self =? 1)%float then result
          else mul_ result (multiplier self)))%py.

(** [latent_image.shape[0]] *)
Definition shape0 (x : tensor) : result nat :=
  match shape x with
  | b :: _ => Ok b
  | [] => Raise IndexError
  end.

(** [unique_inds[-1]] *)
Definition last_of (l : list Z) : result Z :=
  match last l with
  | Some m => Ok m
  | None => Raise IndexError
  end.

(** [idx % batch_size] *)
Definition py_mod (idx : Z) (batch_size : nat) : result nat :=
  if Nat.eqb batch_size 0 then Raise ZeroDivisionError
  else Ok (Z.to_nat (idx mod Z.of_nat batch_size)).

(** [tuple(result[i] for i in inverse_inds)] *)
Fixpoint pick (res : list tensor) (inverse_inds : list nat) : result (list tensor) :=
  match inverse_inds with
  | [] => Ok []
  | i :: rest =>
      match res !! i with
      | None => Raise IndexError
      | Some x =>
          match pick res rest with
          | Ok xs => Ok (x :: xs)
          | Raise e => Raise e
          end
      end
  end.

(** The body of the loop over [range(unique_inds[-1] + 1)]. *)
Definition sample_index (self : t) (latent_image : tensor) (batch_size : nat)
    (unique_inds : list Z) (res : list tensor) (idx : Z)
  : Py world (list tensor) :=
  (i <- lift_result (py_mod idx batch_size) ;;
   noise <- _sample_noise self (example latent_image i) (seed self + idx) ;;
   ret (if bool_decide (idx ∈ unique_inds) then res ++ [noise] else res))%py.

Definition generate_noise (self : t) (input_latent : latent) : Py world tensor :=
  let latent_image := samples input_latent in
  let batch_inds := batch_index input_latent in
  (torch_manual_seed (seed self) ;;;
   random_seed (seed self) ;;;
   if (multiplier self =? 0)%float then
     ret (zeros (shape latent_image) (t_dtype latent_image)
            (t_layout latent_image) cpu)
   else
     match batch_inds with
     | None => _sample_noise self latent_image (seed self)
     | Some batch_inds =>
         let (unique_inds, inverse_inds) := np_unique batch_inds in
         (batch_size <- lift_result (shape0 latent_image) ;;
          top <- lift_result (last_of unique_inds) ;;
          res <- for_loop (sample_index self latent_image batch_size unique_inds)
                   (range (top + 1)) [] ;;
          chunks <- lift_result (pick res inverse_inds) ;;
          lift_result (cat chunks))
     end)%py.

End Adapter.
End CustomNOISE.

(** ** NoisyLatentLike *)

Module NoisyLatentLikeNode.
Section Node.
Context `{Env}.

(** [while hasattr(model, "model"): model = model.model] *)
Fixpoint unwrap (model : model_obj) : model_obj :=
  match model with
  | ModelWrapper inner => unwrap inner
  | BaseModel _ _ => model
  end.

(** [model.latent_format.scale_factor] *)
Fixpoint latent_scale_factor (model : model_obj) : float :=
  match model with
  | ModelWrapper inner => latent_scale_factor inner
  | BaseModel _ scale_factor => scale_factor
  end.

(** [a / b] on Python floats *)
Definition py_div (a b : float) : result float :=
  if (b =? 0)%float then Raise ZeroDivisionError else Ok (a / b)%float.

(** [sigmas is not None and len(sigmas) > n]; for the one-dimensional
    tensor of sigmas, [sigmas.numel()] is its length as well. *)
Definition longer_than (n : nat) (sigmas : option (list float)) : bool :=
  match sigmas with
  | Some s => (n <? length s)%nat
  | None => false
  end.

(** [sigmas[i]] and [sigmas[-1]], used where the length has been tested *)
Definition item (sigmas : option (list float)) (i : nat) : float :=
  nth i (default [] sigmas) 0%float.

Definition last_item (sigmas : option (list float)) : float :=
  List.last (default [] sigmas) 0%float.

Definition missing_model : exn :=
  ValueError "NoisyLatentLike requires a model when sigmas are connected!".

(** [torch.random.get_rng_state()]: the state of the default CPU
    generator. *)
Definition get_rng_state : Py (process rng_state) rng_state :=
  fun p => (Ok (torch_rng p), p).

(** [torch.random.set_rng_state(st)]: the default CPU generator is set, and
    no other. *)
Definition set_rng_state (st : rng_state) : Py (process rng_state) unit :=
  fun p => (Ok tt, {| torch_rng := st; device_rng := device_rng p;
                      random_rng := random_rng p |}).

(** [torch.random.manual_seed(seed)]: the generators of all devices are
    seeded. The port is typed [None | int], and [None] is refused. *)
Definition manual_seed (seed : option Z) : Py (process rng_state) unit :=
  match seed with
  | None => raise (TypeError "manual_seed(): argument 'seed' must be int, not NoneType")
  | Some s =>
      fun p => (Ok tt, {| torch_rng := torch_seeded s; device_rng := device_seeded s;
                          random_rng := random_rng p |})
  end.

(** The first statements of [go]: the multiplier, scaled by the first sigma
    when sigmas are connected, for which a model is required. *)
Definition scaled_multiplier (multiplier : float) (sigmas : option (list float))
    (model : option model_obj) : result float :=
  if longer_than 0 sigmas then
    match model with
    | None => Raise missing_model
    | Some model =>
        let model := unwrap model in
        let latent_scale_factor := latent_scale_factor model in
        let max_denoise := max_denoise model (default [] sigmas) in
        let s0 := item sigmas 0 in
        match py_div (if max_denoise then sqrt_one_plus_square s0 else s0)
                latent_scale_factor with
        | Ok q => Ok (multiplier * q)%float
        | Raise e => Raise e
        end
    end
  else Ok multiplier.

(** [sigma_min, sigma_max, sigma, sigma_next], which are absent unless the
    sigmas have more than one element. *)
Definition sigma_bounds (sigmas : option (list float))
  : option float * option float * option float * option float :=
  if longer_than 1 sigmas
  then (Some (item sigmas 0), Some (last_item sigmas),
        Some (item sigmas 0), Some (item sigmas 1))
  else (None, None, None, None).

(** The noise sampler [ns], built from the custom noise if one is connected
    and from the noise type otherwise. Building it is a call into
    [noise.py], made before the state of the generator is saved. *)
Definition build_noise_sampler (noise_type : string) (seed : option Z)
    (latent_samples : tensor) (custom_noise_opt : option custom_noise)
    (sigmas : option (list float))
  : Py (process rng_state) (sampler_of rng_state) :=
  let '(sigma_min, sigma_max, _, _) := sigma_bounds sigmas in
  match custom_noise_opt with
  | Some custom =>
      make_noise_sampler custom latent_samples sigma_min sigma_max None None None
  | None =>
      match NoiseType_getitem noise_type with
      | Some member =>
          get_noise_sampler member latent_samples sigma_min sigma_max seed true
      | None => raise (KeyError noise_type)
      end
  end.

(** [go]: after the statements above, the state of the default generator is
    saved, the generators are seeded, [repeat_batch] samples are drawn and
    concatenated, and the saved state is put back, whether or not the
    sampling raised. *)
Definition go (noise_type : string) (seed : option Z) (lat : latent)
    (multiplier : float) (add_to_latent : bool) (repeat_batch : Z)
    (custom_noise_opt : option custom_noise)
    (mul_by_sigmas_opt : option (list float)) (model_opt : option model_obj)
  : Py (process rng_state) latent :=
  let model := model_opt in
  let sigmas := mul_by_sigmas_opt in
  (multiplier <- lift_result (scaled_multiplier multiplier sigmas model) ;;
   let '(_, _, sigma, sigma_next) := sigma_bounds sigmas in
   let latent_samples := samples lat in
   ns <- build_noise_sampler noise_type seed latent_samples custom_noise_opt sigmas ;;
   randst <- get_rng_state ;;
   result <- try_finally
               (manual_seed seed ;;;
                noises <- for_each (fun _ => ns sigma sigma_next) (range repeat_batch) ;;
                lift_result (cat noises))
               (set_rng_state randst) ;;
   let result := scale_noise result (Some multiplier) true in
   result <- (if add_to_latent
              then lift_result (add_repeated result latent_samples repeat_batch)
              else ret result) ;;
   ret {| samples := result; batch_index := None |})%py.

End Node.
End NoisyLatentLikeNode.

(** ** SamplerConfigOverride *)

Module SamplerNodeConfigOverride.
Section Node.
Context `{Env}.

Definition KWARG_OVERRIDES : list string :=
  ["s_noise"; "eta"; "s_churn"; "r"; "solver_type"].

(** The name under which the step function of this class is known, and the
    parameters its signature declares. *)
Definition own_function : string := "SamplerNodeConfigOverride.sampler_function".

Definition own_params : list string :=
  ["model"; "x"; "sigmas"; "args"; "override_sampler_cfg"; "noise_sampler";
   "extra_args"; "kwargs"].

(** [d.get(k)] and [d.get(k, dflt)] *)
Definition dict_get (d : gmap string pyval) (k : string) : pyval :=
  default PNone (d !! k).

Definition dict_get_or (d : gmap string pyval) (k : string) (dflt : pyval) : pyval :=
  default dflt (d !! k).

(** [a | b] on dictionaries: the entries of [b] win. *)
Definition dict_or (a b : gmap string pyval) : gmap string pyval := b ∪ a.

(** The dictionary that [get_sampler] stores under the key
    ["override_sampler_cfg"]. *)
Definition override_sampler_cfg (sampler member custom_noise : pyval)
    (s_noise eta s_churn r : float) (sde_solver : string)
    (cpu_noise normalize : bool) : gmap string pyval :=
  <["sampler" := sampler]>
  (<["noise_type" := member]>
  (<["custom_noise" := custom_noise]>
  (<["s_noise" := PFloat s_noise]>
  (<["eta" := PFloat eta]>
  (<["s_churn" := PFloat s_churn]>
  (<["r" := PFloat r]>
  (<["solver_type" := PStr sde_solver]>
  (<["cpu_noise" := PBool cpu_noise]>
  (<["normalize" := PBool normalize]> ∅))))))))).

(** [NoiseType[noise_type.upper()] if noise_type is not None else None] *)
Definition noise_type_member (noise_type : option string) : result pyval :=
  match noise_type with
  | None => Ok PNone
  | Some name =>
      match NoiseType_getitem name with
      | Some _ => Ok (PNoiseType name)
      | None => Raise (KeyError name)
      end
  end.

(** [get_sampler]: the sampler it returns has the step function of this
    class and carries the configuration among its extra options. *)
Definition get_sampler (sampler : pyval) (eta s_noise s_churn r : float)
    (sde_solver : string) (cpu_noise : bool) (noise_type : option string)
    (custom_noise_opt : option nat) (normalize : bool) : result pyval :=
  match sampler with
  | PSampler _ _ extra_options inpaint_options =>
      match noise_type_member noise_type with
      | Raise e => Raise e
      | Ok member =>
          let cfg :=
            override_sampler_cfg sampler member
              (from_option PCustomNoise PNone custom_noise_opt)
              s_noise eta s_churn r sde_solver cpu_noise normalize in
          Ok (PSampler own_function own_params
                (dict_or extra_options {["override_sampler_cfg" := PDict cfg]})
                (dict_or inpaint_options ∅))
      end
  | _ => Raise (AttributeError "extra_options")
  end.

(** [not v] for the values a configuration can be *)
Definition falsy (v : pyval) : bool :=
  match v with
  | PNone => true
  | PBool b => negb b
  | PInt z => z =? 0
  | PFloat f => (f =? 0)%float
  | PStr s => String.eqb s ""
  | PDict d => bool_decide (d = ∅)
  | _ => false
  end.

(** [t.min()] and [t.max()] of a one-dimensional tensor; an empty tensor is
    refused. *)
Definition tensor_min (l : list float) : result float :=
  match l with
  | [] => Raise (RuntimeError "min(): Expected reduction dim to be specified for input.numel() == 0")
  | a :: rest => Ok (foldl (fun m b => if (b <? m)%float then b else m) a rest)
  end.

Definition tensor_max (l : list float) : result float :=
  match l with
  | [] => Raise (RuntimeError "max(): Expected reduction dim to be specified for input.numel() == 0")
  | a :: rest => Ok (foldl (fun m b => if (m <? b)%float then b else m) a rest)
  end.

(** The call that ends [sampler_function]: the step function of the wrapped
    sampler, its positional arguments and its keyword arguments. *)
Record call : Type := {
  callee : string;
  positional : list pyval;
  keywords : gmap string pyval
}.

(** One round of [for k in cls.KWARG_OVERRIDES]. *)
Definition override (params : list string) (cfg kwargs : gmap string pyval)
    (k : string) : gmap string pyval :=
  if negb (bool_decide (k ∈ params)) || is_none (dict_get cfg k) then kwargs
  else <[k := dict_get cfg k]> kwargs.

(** [sampler_function(cls, model, x, sigmas, *args, override_sampler_cfg=None,
    noise_sampler=None, extra_args=None, **kwargs)], called with the
    positional arguments [model, x, sigmas, *args] and the keyword arguments
    [passed]: the three named keywords bind to their parameters, the others
    are gathered in [kwargs]. *)
Definition sampler_function (model : pyval) (x : tensor) (sigmas : list float)
    (args : list pyval) (passed : gmap string pyval) : result call :=
  let override_sampler_cfg := dict_get passed "override_sampler_cfg" in
  let noise_sampler := dict_get passed "noise_sampler" in
  let extra_args := dict_get passed "extra_args" in
  let kwargs :=
    delete "override_sampler_cfg" (delete "noise_sampler" (delete "extra_args" passed)) in
  if falsy override_sampler_cfg then
    Raise (ValueError "Override sampler config missing!")
  else
    let extra_args := if is_none extra_args then PDict ∅ else extra_args in
    match override_sampler_cfg with
    | PDict cfg =>
        match cfg !! "sampler" with
        | None => Raise (KeyError "sampler")
        | Some sampler =>
            let noise_type := dict_get cfg "noise_type" in
            let custom_noise := dict_get cfg "custom_noise" in
            let cpu := dict_get_or cfg "cpu_noise" (PBool true) in
            let normalize := dict_get_or cfg "normalize" (PBool true) in
            match tensor_min (filter (fun s => (0 <? s)%float = true) sigmas),
                  tensor_max sigmas with
            | Raise e, _ | Ok _, Raise e => Raise e
            | Ok sigma_min, Ok sigma_max =>
                match extra_args with
                | PDict extra =>
                    let seed := dict_get extra "seed" in
                    match
                      if negb (is_none custom_noise) then
                        match custom_noise with
                        | PCustomNoise c =>
                            Ok (PNoiseSampler (OfCustomNoise c) x sigma_min
                                  sigma_max seed cpu normalize)
                        | _ => Raise (AttributeError "make_noise_sampler")
                        end
                      else if negb (is_none noise_type) then
                        match noise_type with
                        | PNoiseType member =>
                            Ok (PNoiseSampler (OfNoiseType member) x sigma_min
                                  sigma_max seed cpu normalize)
                        | _ => Raise (TypeError "not a member of NoiseType")
                        end
                      else Ok noise_sampler
                    with
                    | Raise e => Raise e
                    | Ok noise_sampler =>
                        match sampler with
                        | PSampler wrapped params _ _ =>
                            let kwargs :=
                              if bool_decide ("noise_sampler" ∈ params)
                              then <["noise_sampler" := noise_sampler]> kwargs
                              else kwargs in
                            let kwargs :=
                              foldl (override params cfg) kwargs KWARG_OVERRIDES in
                            Ok {| callee := wrapped;
                                  positional :=
                                    model :: PTensor x :: PSigmas sigmas :: args;
                                  keywords := <["extra_args" := extra_args]> kwargs |}
                        | _ => Raise (AttributeError "sampler_function")
                        end
                    end
                | _ => Raise (AttributeError "get")
                end
            end
        end
    | _ => Raise (TypeError "object is not subscriptable")
    end.

End Node.
End SamplerNodeConfigOverride.

(** ** The registration table *)

Module Registration.

Inductive node_class : Type :=
  | SamplerNodeSonarEuler
  | SamplerNodeSonarEulerAncestral
  | SamplerNodeSonarDPMPPSDE
  | GuidanceConfigNode
  | SamplerNodeConfigOverride
  | NoisyLatentLikeNode
  | SonarCustomNoiseNode
  | SonarCompositeNoiseNode
  | SonarModulatedNoiseNode
  | SonarRepeatedNoiseNode
  | SonarScheduledNoiseNode
  | SonarGuidedNoiseNode
  | SonarRandomNoiseNode
  | SonarToComfyNOISENode
  | SonarBlendFilterNoiseNode
  | KRestartSamplerCustomNoise
  | RestartSamplerCustomNoise.

(** A namespace that the discovery registry [external.MODULES] holds for a
    sibling plugin; of its contents the module looks at one thing only,
    [hasattr(rs.restart_sampling, "RestartSampler")]. *)
Record plugin : Type := {
  has_RestartSampler : bool
}.

(** The plugin is reported available: ["name" in external.MODULES]. *)
Definition available (MODULES : gmap string plugin) (name : string) : bool :=
  bool_decide (is_Some (MODULES !! name)).

(** The table as the module body leaves it when it has been loaded with
    the registry [MODULES]. *)
Definition NODE_CLASS_MAPPINGS (MODULES : gmap string plugin)
  : gmap string node_class :=
  let table : gmap string node_class :=
    <["SamplerSonarEuler" := SamplerNodeSonarEuler]>
    (<["SamplerSonarEulerA" := SamplerNodeSonarEulerAncestral]>
    (<["SamplerSonarDPMPPSDE" := SamplerNodeSonarDPMPPSDE]>
    (<["SonarGuidanceConfig" := GuidanceConfigNode]>
    (<["SamplerConfigOverride" := SamplerNodeConfigOverride]>
    (<["NoisyLatentLike" := NoisyLatentLikeNode]>
    (<["SonarCustomNoise" := SonarCustomNoiseNode]>
    (<["SonarCompositeNoise" := SonarCompositeNoiseNode]>
    (<["SonarModulatedNoise" := SonarModulatedNoiseNode]>
    (<["SonarRepeatedNoise" := SonarRepeatedNoiseNode]>
    (<["SonarScheduledNoise" := SonarScheduledNoiseNode]>
    (<["SonarGuidedNoise" := SonarGuidedNoiseNode]>
    (<["SonarRandomNoise" := SonarRandomNoiseNode]>
    (<["SONAR_CUSTOM_NOISE to NOISE" := SonarToComfyNOISENode]> ∅))))))))))))) in
  let table :=
    if available MODULES "bleh"
    then <["SonarBlendFilterNoise" := SonarBlendFilterNoiseNode]> table
    else table in
  match MODULES !! "restart" with
  | Some rs =>
      let table := <["KRestartSamplerCustomNoise" := KRestartSamplerCustomNoise]> table in
      if has_RestartSampler rs
      then <["RestartSamplerCustomNoise" := RestartSamplerCustomNoise]> table
      else table
  | None => table
  end.

End Registration.

(** ** An environment to run the definitions in

    A small instance of [Env], for evaluating the nodes on concrete inputs:
    a generator state is the seed it was last given and the number of draws
    made since; a noise sample is a tensor shaped like its reference whose
    elements are all the number of the seed, and drawing it advances the
    default generator; a cast leaves an element as it is, and products are
    those of binary64. *)

Module Demo.

Definition filled (x : tensor) (v : float) : tensor :=
  {| shape := shape x; t_dtype := t_dtype x; t_layout := t_layout x;
     t_device := t_device x;
     data := repeat v (numel_of (shape x)) |}.

Definition scaled (t : tensor) (m : float) : tensor :=
  {| shape := shape t; t_dtype := t_dtype t; t_layout := t_layout t;
     t_device := t_device t; data := map (fun x => (x * m)%float) (data t) |}.

Definition float_of_seed (seed : option Z) : float :=
  match seed with
  | Some (Zpos p) => of_uint63 (Uint63.of_pos p)
  | _ => 0%float
  end.

Definition advance (p : process (Z * nat)) : process (Z * nat) :=
  {| torch_rng := (fst (torch_rng p), S (snd (torch_rng p)));
     device_rng := device_rng p;
     random_rng := random_rng p |}.

Definition sampler (x : tensor) (seed : option Z) (_ _ : option float)
  : Py (process (Z * nat)) tensor :=
  fun p => (Ok (filled x (float_of_seed seed)), advance p).

#[local] Instance env : Env := {|
  rng_state := Z * nat;
  torch_seeded := fun s => (s, 0%nat);
  device_seeded := fun s => (s, 0%nat);
  random_seeded := fun s => (s, 0%nat);
  cast := fun _ v => v;
  scalar_mul := fun _ x m => (x * m)%float;
  custom_noise := unit;
  NoiseType := bool;
  NoiseType_getitem := fun name =>
    if String.eqb name "gaussian" then Some true
    else if String.eqb name "brownian" then Some false
    else None;
  make_noise_sampler := fun _ x _ _ seed _ _ => ret (sampler x seed);
  get_noise_sampler := fun _ x _ _ seed _ => ret (sampler x seed);
  scale_noise := fun t m _ => from_option (scaled t) t m;
  max_denoise := fun _ _ => false;
  sqrt_one_plus_square := fun s => sqrt (1 + s * s)%float;
  add_repeated := fun t _ _ => Ok t;
  percent_to_sigma := fun _ p => p;
  prepare_ref_latent := fun t => t;
  ffilter := list Z;
  FILTER_PRESETS := fun _ => Some [];
  literal_eval_list := fun _ => Ok [];
  strip := fun s => s
|}.

(** A second environment: its noise samplers answer with a strided
    double-precision tensor on the accelerator, whatever the layout of the
    reference; every schedule counts as one of maximum denoise; and the
    table of filter presets has the one entry "none". *)

Definition strided_sampler (x : tensor) (seed : option Z) (_ _ : option float)
  : Py (process (Z * nat)) tensor :=
  fun p =>
    (Ok {| shape := shape x; t_dtype := float64; t_layout := strided;
           t_device := cuda;
           data := repeat (float_of_seed seed) (numel_of (shape x)) |},
     advance p).

Definition strided_env : Env := {|
  rng_state := Z * nat;
  torch_seeded := fun s => (s, 0%nat);
  device_seeded := fun s => (s, 0%nat);
  random_seeded := fun s => (s, 0%nat);
  cast := fun _ v => v;
  scalar_mul := fun _ x m => (x * m)%float;
  custom_noise := unit;
  NoiseType := bool;
  NoiseType_getitem := fun name =>
    if String.eqb name "gaussian" then Some true
    else if String.eqb name "brownian" then Some false
    else None;
  make_noise_sampler := fun _ x _ _ seed _ _ => ret (strided_sampler x seed);
  get_noise_sampler := fun _ x _ _ seed _ => ret (strided_sampler x seed);
  scale_noise := fun t m _ => from_option (scaled t) t m;
  max_denoise := fun _ _ => true;
  sqrt_one_plus_square := fun s => sqrt (1 + s * s)%float;
  add_repeated := fun t _ _ => Ok t;
  percent_to_sigma := fun _ p => p;
  prepare_ref_latent := fun t => t;
  ffilter := list Z;
  FILTER_PRESETS := fun name => if String.eqb name "none" then Some [] else None;
  literal_eval_list := fun text =>
    if String.eqb text "1, 2" then Ok [1; 2] else Raise (SyntaxError text);
  strip := fun s => s
|}.

End Demo.

(** Inputs for concrete runs in that environment. *)

Module Runs.
Import Noise.

Definition image : tensor :=
  {| shape := [2; 1; 1; 2]%nat; t_dtype := float32; t_layout := strided;
     t_device := cuda; data := [1; 2; 3; 4]%float |}.

Definition plain_latent : latent := {| samples := image; batch_index := None |}.

Definition rest_state : process (Z * nat) :=
  {| torch_rng := (7, 3%nat); device_rng := (7, 9%nat); random_rng := (7, 5%nat) |}.

#[local] Existing Instance Demo.env.

(** An adapter with the given multiplier, seeded with 42. *)
Definition adapter (m : float) : CustomNOISE.t :=
  {| CustomNOISE.custom_noise_ := tt; CustomNOISE.seed := 42;
     CustomNOISE.cpu_noise := true; CustomNOISE.normalize := true;
     CustomNOISE.multiplier := m |}.

Definition silent : CustomNOISE.t := adapter 0.

(** All generators just seeded with [s]. *)
Definition seeded (s : Z) : process (Z * nat) :=
  {| torch_rng := (s, 0%nat); device_rng := (s, 0%nat); random_rng := (s, 0%nat) |}.

Definition world_of (g : process (Z * nat)) (d : list (tensor * Z))
  : CustomNOISE.world :=
  @CustomNOISE.Build_world Demo.env g d.

Definition fresh_world : CustomNOISE.world := world_of rest_state [].

Definition gaussian (f : float) : chain_item :=
  {| factor := f; kwargs := CustomNoiseItem "gaussian" |}.

(** A store with two chains: one of two gaussian items of factor 1 at
    address 0, an empty one at address 1. *)
Definition two_chains : store :=
  [[gaussian 1; gaussian 1]; []].

(** An ancestral Euler sampler of the host: its step function declares
    [eta], [s_noise] and [noise_sampler], and neither [r], [s_churn] nor
    [solver_type]. *)
Definition euler_ancestral : pyval :=
  PSampler "sample_euler_ancestral"
    ["model"; "x"; "sigmas"; "extra_args"; "callback"; "disable"; "eta";
     "s_noise"; "noise_sampler"]
    (<["eta" := PFloat 1]> (<["s_noise" := PFloat 1]> ∅)) ∅.

(** The extra options of the sampler that [get_sampler] makes of
    [euler_ancestral] with eta 0.5, s_noise 1.25, s_churn 0, r 0.25, the
    midpoint solver, gaussian noise and no custom noise. *)
Definition overriding_options : gmap string pyval :=
  SamplerNodeConfigOverride.dict_or
    (<["eta" := PFloat 1]> (<["s_noise" := PFloat 1]> ∅))
    {["override_sampler_cfg" :=
        PDict (SamplerNodeConfigOverride.override_sampler_cfg euler_ancestral
                 (PNoiseType "gaussian") PNone 1.25 0.5 0 0.25 "midpoint"
                 true true)]}.



Definition indexed_latent : latent :=
  {| samples := image; batch_index := Some [0; 0; 1] |}.

(** A sparse reference and a reference in compressed-row layout. *)
Definition sparse_image : tensor :=
  {| shape := [1; 2]%nat; t_dtype := float16; t_layout := sparse_coo;
     t_device := cuda; data := [1; 2]%float |}.

Definition csr_image : tensor :=
  {| shape := [1; 2]%nat; t_dtype := float16; t_layout := sparse_csr;
     t_device := cuda; data := [1; 2]%float |}.

(** An adapter of the second environment, with a multiplier of 3. *)
Definition strided_adapter : CustomNOISE.t (H := Demo.strided_env) :=
  @CustomNOISE.Build_t Demo.strided_env tt 42 true true 3%float.

Definition strided_world : CustomNOISE.world (H := Demo.strided_env) :=
  @CustomNOISE.Build_world Demo.strided_env rest_state [].

Definition empty_index_latent : latent :=
  {| samples := image; batch_index := Some [] |}.

(** The sample that the first environment draws for [image] with the seed
    42, once on the CPU, and the world after that draw. *)
Definition sample_42 : tensor :=
  {| shape := [2; 1; 1; 2]%nat; t_dtype := float32; t_layout := strided;
     t_device := cpu; data := [42; 42; 42; 42]%float |}.

Definition after_one_draw : CustomNOISE.world :=
  world_of {| torch_rng := (7, 4%nat); device_rng := (7, 9%nat);
              random_rng := (7, 5%nat) |} [(image, 42)].

(** What the second environment answers for a reference of shape [1; 2]
    with the seed 42, and the world after that draw. *)
Definition strided_sample : tensor :=
  {| shape := [1; 2]%nat; t_dtype := float64; t_layout := strided;
     t_device := cuda; data := [42; 42]%float |}.

Definition strided_after (x : tensor) : CustomNOISE.world (H := Demo.strided_env) :=
  @CustomNOISE.Build_world Demo.strided_env
    {| torch_rng := (7, 4%nat); device_rng := (7, 9%nat);
       random_rng := (7, 5%nat) |} [(x, 42)].

(** A base model with a latent scale factor of one half, and a state of the
    generators that differs from [rest_state] in the tensor generators
    only. *)
Definition half_scale_model : model_obj := BaseModel 0 0.5.

Definition other_torch_state : process (Z * nat) :=
  {| torch_rng := (1, 1%nat); device_rng := (2, 2%nat); random_rng := (7, 5%nat) |}.





(** A store of the second environment with one empty chain. *)
Definition one_chain : store (H := Demo.strided_env) := [[]].

End Runs.

(** * Notions used in the statements *)

Section StateNotions.
Context {S : Type}.

(** A computation that leaves the state as it found it. *)
Definition pure_on {A} (m : Py S A) : Prop := forall s, snd (m s) = s.

(** A computation that never raises the exception [e]. *)
Definition avoids {A} (e : exn) (m : Py S A) : Prop :=
  forall s, fst (m s) <> Raise e.

End StateNotions.

Section NodeNotions.
Context `{Env}.
Import Noise NoisyLatentLikeNode SamplerNodeConfigOverride CustomNOISE.

(** A computation after which the default generator is in the state it was
    in before. *)
Definition keeps_torch_rng {A} (m : Py (process rng_state) A) : Prop :=
  forall p, torch_rng (snd (m p)) = torch_rng p.

(** Building a sampler with [m] never raises the exception [e], and neither
    does a call of the sampler built. *)
Definition never_raises (e : exn) (m : Py (process rng_state) (sampler_of rng_state))
  : Prop :=
  forall p,
    fst (m p) <> Raise e
    /\ forall ns, fst (m p) = Ok ns -> forall a b p', fst (ns a b p') <> Raise e.

(** The functions of the environment that [go] calls never raise the error
    that [go] itself raises for a missing model. *)
Definition quiet : Prop :=
  (forall c x lo hi s cpu nrm,
      never_raises missing_model (make_noise_sampler c x lo hi s cpu nrm))
  /\ (forall n x lo hi s cpu,
        never_raises missing_model (get_noise_sampler n x lo hi s cpu))
  /\ (forall t u n, add_repeated t u n <> Raise missing_model).

(** The statements of [go] from the saving of the generator state on, for
    the sampler [ns] that has been built and the multiplier as scaled. *)
Definition sampling (seed : option Z) (lat : latent) (add_to_latent : bool)
    (repeat_batch : Z) (sigmas : option (list float))
    (ns : sampler_of rng_state) (multiplier : float)
  : Py (process rng_state) latent :=
  let '(_, _, sigma, sigma_next) := sigma_bounds sigmas in
  (randst <- get_rng_state ;;
   result <- try_finally
               (manual_seed seed ;;;
                noises <- for_each (fun _ => ns sigma sigma_next) (range repeat_batch) ;;
                lift_result (cat noises))
               (set_rng_state randst) ;;
   let result := scale_noise result (Some multiplier) true in
   result <- (if add_to_latent
              then lift_result (add_repeated result (samples lat) repeat_batch)
              else ret result) ;;
   ret {| samples := result; batch_index := None |})%py.

(** A computation that does not look at the tensor generators: started in
    two states with the same general-purpose generator, it has the same
    outcome and leaves the same general-purpose generator. *)
Definition blind_to_torch {A} (m : Py (process rng_state) A) : Prop :=
  forall p1 p2, random_rng p1 = random_rng p2 ->
    fst (m p1) = fst (m p2) /\ random_rng (snd (m p1)) = random_rng (snd (m p2)).

(** The constructors of noise samplers do not look at the tensor
    generators. *)
Definition constructors_blind : Prop :=
  (forall c x lo hi s cpu nrm, blind_to_torch (make_noise_sampler c x lo hi s cpu nrm))
  /\ (forall n x lo hi s cpu, blind_to_torch (get_noise_sampler n x lo hi s cpu)).

(** The items of the chain connected to the chain input; none when no chain
    is connected. *)
Definition connected_items (sonar_custom_noise_opt : option addr) (h : store)
  : option (list chain_item) :=
  match sonar_custom_noise_opt with
  | Some chain => h !! chain
  | None => Some []
  end.

(** The ports of a node call that the statements below speak of: the
    factor; the rescale target, which only SonarCustomNoise has (the other
    nodes call the inherited [go] without it, so that it is 0.0); and the
    chain input [sonar_custom_noise_opt], which only SonarCustomNoise has. *)
Definition factor_of (c : Host.node_call) : float :=
  match c with
  | Host.SonarCustomNoise factor _ _ _
  | Host.SonarModulatedNoise factor _ _ _ _ _ _ _ _
  | Host.SonarRepeatedNoise factor _ _ _ _ _
  | Host.SonarScheduledNoise _ factor _ _ _ _ _
  | Host.SonarCompositeNoise factor _ _ _ _ _ _
  | Host.SonarGuidedNoise factor _ _ _ _ _ _ _
  | Host.SonarRandomNoise factor _ _ _
  | Host.SonarBlendFilterNoise factor _ _ _ _ _ _ _ _ _ _ _ _ => factor
  end.

Definition rescale_of (c : Host.node_call) : float :=
  match c with
  | Host.SonarCustomNoise _ rescale _ _ => rescale
  | _ => 0%float
  end.

Definition chain_input (c : Host.node_call) : option addr :=
  match c with
  | Host.SonarCustomNoise _ _ _ sonar_custom_noise_opt => sonar_custom_noise_opt
  | _ => None
  end.

(** The chains connected to the other ports of a node call, which the node
    wraps in its item: in the order of the ports, with an unconnected
    fallback left out. *)
Definition wrapped_inputs (c : Host.node_call) : list addr :=
  match c with
  | Host.SonarCustomNoise _ _ _ _ => []
  | Host.SonarModulatedNoise _ noise _ _ _ _ _ _ _
  | Host.SonarRepeatedNoise _ noise _ _ _ _
  | Host.SonarGuidedNoise _ _ noise _ _ _ _ _
  | Host.SonarRandomNoise _ noise _ _
  | Host.SonarBlendFilterNoise _ noise _ _ _ _ _ _ _ _ _ _ _ => [noise]
  | Host.SonarScheduledNoise _ _ noise _ _ _ fallback => noise :: option_list fallback
  | Host.SonarCompositeNoise _ dst src _ _ _ _ => [dst; src]
  end.

(** The nodes that hand [sonar_custom_noise.clone()] to their item, where
    the others hand it [sonar_custom_noise]. *)
Definition clones_wrapped (c : Host.node_call) : bool :=
  match c with
  | Host.SonarGuidedNoise _ _ _ _ _ _ _ _
  | Host.SonarBlendFilterNoise _ _ _ _ _ _ _ _ _ _ _ _ _ => true
  | _ => false
  end.

(** The chains that an item holds. *)
Definition wrapped_chains (k : item_kwargs) : list addr :=
  match k with
  | CustomNoiseItem _ => []
  | ModulatedNoise noise _ _ _ _ _ _ _
  | RepeatedNoise noise _ _ _ _
  | GuidedNoise _ _ noise _ _ _
  | RandomNoise noise _ _
  | BlendFilterNoise noise _ _ _ _ _ _ _ _ _ _ => [noise]
  | ScheduledNoise noise _ _ _ fallback => noise :: option_list fallback
  | CompositeNoise dst src _ _ _ _ => [dst; src]
  end.

(** The error, if any, with which a call of SonarBlendFilterNoise fails to
    get its filter: from [ast.literal_eval] on a custom text that is not
    empty once stripped, or else from the look-up of the preset. No other
    node has a filter. *)
Definition filter_error (c : Host.node_call) : option exn :=
  match c with
  | Host.SonarBlendFilterNoise _ _ _ ffilter_name ffilter_custom _ _ _ _ _ _ _ _ =>
      if negb (String.eqb (strip ffilter_custom) "") then
        match literal_eval_list (strip ffilter_custom) with
        | Ok _ => None
        | Raise e => Some e
        end
      else
        match FILTER_PRESETS ffilter_name with
        | Some _ => None
        | None => Some (KeyError ffilter_name)
        end
  | _ => None
  end.


(** The noise sample for the batch index [idx]: drawn with the seed
    [seed + idx] against the example [idx % batch_size] of the reference. *)
Definition sample_at (self : t) (latent_image : tensor) (batch_size : nat)
    (idx : Z) : Py world tensor :=
  _sample_noise self
    (example latent_image (Z.to_nat (idx mod Z.of_nat batch_size)))
    (seed self + idx).

(** The state in which sampling starts: the generators seeded from the
    seed of the adapter. *)
Definition reseeded (self : t) (w : world) : world :=
  {| generators := {| torch_rng := torch_seeded (seed self);
                      device_rng := device_seeded (seed self);
                      random_rng := random_seeded (seed self) |};
     drawn := drawn w |}.

(** Of the samples [ns] drawn for [items], those whose index is in [u]. *)
Fixpoint keep (u items : list Z) (ns : list tensor) : list tensor :=
  match items, ns with
  | i :: items', n :: ns' =>
      if bool_decide (i ∈ u) then n :: keep u items' ns' else keep u items' ns'
  | _, _ => []
  end.


End NodeNotions.

(** * Properties *)

(** ** How computations use the state *)

Section MonadFacts.
Context {S : Type}.

Lemma pure_ret {A} (a : A) : pure_on (@ret S A a).
Proof. intros s; reflexivity. Qed.

Lemma pure_raise {A} e : pure_on (@raise S A e).
Proof. intros s; reflexivity. Qed.

Lemma pure_lift_result {A} (r : result A) : pure_on (@lift_result S A r).
Proof. intros s; reflexivity. Qed.

Lemma pure_bind {A B} (m : Py S A) (k : A -> Py S B) :
  pure_on m -> (forall a, pure_on (k a)) -> pure_on (bind m k).
Proof.
  intros Hm Hk s. unfold bind. specialize (Hm s).
  destruct (m s) as [[a|e] s']; simpl in *; subst; [apply Hk | reflexivity].
Qed.

Lemma avoids_ret {A} e (a : A) : avoids e (@ret S A a).
Proof. intros s; discriminate. Qed.

Lemma avoids_raise {A} e e' : e' <> e -> avoids e (@raise S A e').
Proof. intros Hne s; simpl; congruence. Qed.

Lemma avoids_lift_result {A} e (r : result A) :
  r <> Raise e -> avoids e (@lift_result S A r).
Proof. intros Hne s; exact Hne. Qed.

Lemma avoids_bind {A B} e (m : Py S A) (k : A -> Py S B) :
  avoids e m -> (forall a, avoids e (k a)) -> avoids e (bind m k).
Proof.
  intros Hm Hk s. unfold bind. specialize (Hm s).
  destruct (m s) as [[a|e'] s']; simpl in *; [apply Hk | congruence].
Qed.

Lemma avoids_for_each {A B} e (f : A -> Py S B) items :
  (forall a, avoids e (f a)) -> avoids e (for_each f items).
Proof.
  intros Hf. induction items as [|a rest IH]; simpl.
  - apply avoids_ret.
  - apply avoids_bind; [apply Hf | intros b].
    apply avoids_bind; [exact IH | intros bs; apply avoids_ret].
Qed.

Lemma avoids_try_finally {A} e (body : Py S A) handler :
  avoids e body -> avoids e handler -> avoids e (try_finally body handler).
Proof.
  intros Hb Hh s. unfold try_finally.
  specialize (Hb s). destruct (body s) as [r s1]. specialize (Hh s1).
  destruct (handler s1) as [[[]|e'] s2]; simpl in *; congruence.
Qed.

Lemma for_each_cons {A B} (f : A -> Py S B) a items s :
  for_each f (a :: items) s
  = match f a s with
    | (Ok b, s1) =>
        match for_each f items s1 with
        | (Ok bs, s2) => (Ok (b :: bs), s2)
        | (Raise e, s2) => (Raise e, s2)
        end
    | (Raise e, s1) => (Raise e, s1)
    end.
Proof.
  simpl. unfold bind. destruct (f a s) as [[b|e] s1]; [|reflexivity].
  destruct (for_each f items s1) as [[bs|e] s2]; reflexivity.
Qed.

Lemma for_loop_cons {A B} (body : B -> A -> Py S B) a items acc s :
  for_loop body (a :: items) acc s
  = match body acc a s with
    | (Ok acc', s1) => for_loop body items acc' s1
    | (Raise e, s1) => (Raise e, s1)
    end.
Proof. reflexivity. Qed.

Lemma for_each_length {A B} (f : A -> Py S B) items s bs s' :
  for_each f items s = (Ok bs, s') -> length bs = length items.
Proof.
  revert s bs. induction items as [|a items IH]; intros s bs.
  - intros [= <- _]. reflexivity.
  - rewrite for_each_cons. destruct (f a s) as [[b|e] s1]; [|discriminate].
    destruct (for_each f items s1) as [[bs'|e] s2] eqn:E; [|discriminate].
    intros [= <- <-]. simpl. f_equal. eapply IH, E.
Qed.

End MonadFacts.

Create HintDb py.
#[local] Hint Resolve pure_ret pure_raise pure_lift_result : py.
#[local] Hint Resolve avoids_ret avoids_lift_result : py.

(** ** The registration table *)

Section RegistrationFacts.
Import Registration.

(** C8, as the code has it: the blend-filter class is registered exactly when
    "bleh" is reported available and [KRestartSamplerCustomNoise] exactly when
    "restart" is; [RestartSamplerCustomNoise] is registered exactly when
    "restart" is reported available and its [restart_sampling] namespace
    exposes [RestartSampler]. *)
Theorem conditional_nodes_registered (MODULES : gmap string plugin) :
  (NODE_CLASS_MAPPINGS MODULES !! "SonarBlendFilterNoise"
     = Some SonarBlendFilterNoiseNode
   <-> available MODULES "bleh" = true)
  /\ (NODE_CLASS_MAPPINGS MODULES !! "KRestartSamplerCustomNoise"
        = Some KRestartSamplerCustomNoise
      <-> available MODULES "restart" = true)
  /\ (NODE_CLASS_MAPPINGS MODULES !! "RestartSamplerCustomNoise"
        = Some RestartSamplerCustomNoise
      <-> exists rs, MODULES !! "restart" = Some rs /\ has_RestartSampler rs = true)
  /\ (forall name,
        name <> "SonarBlendFilterNoise" ->
        name <> "KRestartSamplerCustomNoise" ->
        name <> "RestartSamplerCustomNoise" ->
        NODE_CLASS_MAPPINGS MODULES !! name = NODE_CLASS_MAPPINGS ∅ !! name).
Proof.
  unfold NODE_CLASS_MAPPINGS, available.
  destruct (MODULES !! "bleh") as [b|] eqn:Hb;
    destruct (MODULES !! "restart") as [[wrapper]|] eqn:Hr;
    try destruct wrapper; simpl;
    repeat split; intros; simplify_map_eq; eauto;
    try match goal with
        | Hx : exists _, _ |- _ => destruct Hx as (? & ? & ?); simplify_eq; done
        | Hx : bool_decide _ = true |- _ =>
            apply bool_decide_eq_true in Hx; destruct Hx; done
        end;
    try (apply bool_decide_eq_true; eauto; done).
Qed.

(** C8, counterexample to the claim as stated: a registry that reports
    "restart" available, with a [restart_sampling] namespace that has no
    [RestartSampler], leaves [RestartSamplerCustomNoise] out of the table. *)
Lemma restart_wrapper_not_registered :
  let MODULES : gmap string plugin := {["restart" := {| has_RestartSampler := false |}]} in
  available MODULES "restart" = true
  /\ NODE_CLASS_MAPPINGS MODULES !! "RestartSamplerCustomNoise" = None
  /\ NODE_CLASS_MAPPINGS MODULES !! "KRestartSamplerCustomNoise"
       = Some KRestartSamplerCustomNoise.
Proof. vm_compute. auto. Qed.

End RegistrationFacts.

(** ** NoisyLatentLike *)

Section NoisyLatentLikeFacts.
Context `{Env}.
Import NoisyLatentLikeNode.

Lemma pure_keeps_torch_rng {A} (m : Py (process rng_state) A) :
  pure_on m -> keeps_torch_rng m.
Proof. intros Hm p. rewrite Hm. reflexivity. Qed.

Lemma keeps_torch_rng_bind {A B} (m : Py (process rng_state) A)
    (k : A -> Py (process rng_state) B) :
  keeps_torch_rng m -> (forall a, keeps_torch_rng (k a)) ->
  keeps_torch_rng (bind m k).
Proof.
  intros Hm Hk p. unfold bind. specialize (Hm p).
  destruct (m p) as [[a|e] p']; simpl in *; [rewrite Hk|]; exact Hm.
Qed.

(** Whatever the body does to the generators and however it ends, the
    handler [set_rng_state(randst)] leaves the default generator in the state
    [randst]. *)
Lemma try_finally_set_rng_state {A} (body : Py (process rng_state) A) randst p :
  torch_rng (snd (try_finally body (set_rng_state randst) p)) = randst.
Proof. unfold try_finally. destruct (body p) as [r p1]. reflexivity. Qed.

(** Saving the state, running a guarded body and going on with a
    continuation that keeps the state, keeps the state. *)
Lemma scoped_rng {A B} (body : Py (process rng_state) A)
    (k : A -> Py (process rng_state) B) :
  (forall a, keeps_torch_rng (k a)) ->
  keeps_torch_rng
    (bind get_rng_state (fun randst =>
       bind (try_finally body (set_rng_state randst)) k)).
Proof.
  intros Hk p. unfold bind at 1. simpl. unfold bind.
  pose proof (try_finally_set_rng_state body (torch_rng p) p) as Hr.
  destruct (try_finally body (set_rng_state (torch_rng p)) p) as [[a|e] p'];
    simpl in *; [rewrite Hk|]; exact Hr.
Qed.

(** [go], step by step: the multiplier, the sampler, the sampling. *)
Lemma go_steps noise_type seed lat multiplier add_to_latent repeat_batch
    custom_noise_opt mul_by_sigmas_opt model_opt (p : process rng_state) :
  go noise_type seed lat multiplier add_to_latent repeat_batch custom_noise_opt
     mul_by_sigmas_opt model_opt p
  = match scaled_multiplier multiplier mul_by_sigmas_opt model_opt with
    | Raise e => (Raise e, p)
    | Ok m =>
        match build_noise_sampler noise_type seed (samples lat) custom_noise_opt
                mul_by_sigmas_opt p with
        | (Ok ns, p1) =>
            sampling seed lat add_to_latent repeat_batch mul_by_sigmas_opt ns m p1
        | (Raise e, p1) => (Raise e, p1)
        end
    end.
Proof.
  unfold go, sampling. unfold bind at 1. unfold lift_result.
  destruct (scaled_multiplier multiplier mul_by_sigmas_opt model_opt) as [m|e];
    [|reflexivity].
  destruct (sigma_bounds mul_by_sigmas_opt) as [[[lo hi] sigma] sigma_next].
  unfold bind at 1.
  destruct (build_noise_sampler _ _ _ _ _ p) as [[ns|e] p1]; reflexivity.
Qed.

Lemma sampling_keeps_torch_rng seed lat add_to_latent repeat_batch sigmas ns m :
  keeps_torch_rng (sampling seed lat add_to_latent repeat_batch sigmas ns m).
Proof.
  unfold sampling.
  destruct (sigma_bounds sigmas) as [[[lo hi] sigma] sigma_next].
  apply scoped_rng. intros result. apply pure_keeps_torch_rng.
  apply pure_bind; [destruct add_to_latent; auto with py | auto with py].
Qed.

(** C5, as the code has it: when the first checks of [go] fail, nothing has
    been touched. Otherwise [go] ends, by a return or by an exception and
    for every [repeat_batch], with the default CPU generator in the state in
    which the construction of the noise sampler left it, which is the state
    that [go] saved. So the state from before the call is restored if that
    construction keeps the default generator. *)
Theorem go_restores_rng_state noise_type seed lat multiplier add_to_latent
    repeat_batch custom_noise_opt mul_by_sigmas_opt model_opt
    (p : process rng_state) :
  let out := go noise_type seed lat multiplier add_to_latent repeat_batch
               custom_noise_opt mul_by_sigmas_opt model_opt p in
  let built := build_noise_sampler noise_type seed (samples lat) custom_noise_opt
                 mul_by_sigmas_opt p in
  match scaled_multiplier multiplier mul_by_sigmas_opt model_opt with
  | Raise e => out = (Raise e, p)
  | Ok _ => torch_rng (snd out) = torch_rng (snd built)
  end
  /\ (torch_rng (snd built) = torch_rng p -> torch_rng (snd out) = torch_rng p).
Proof.
  intros out built. subst out built. rewrite go_steps.
  destruct (scaled_multiplier multiplier mul_by_sigmas_opt model_opt) as [m|e].
  - destruct (build_noise_sampler _ _ _ _ _ p) as [[ns|e] p1]; simpl.
    + rewrite sampling_keeps_torch_rng. auto.
    + auto.
  - auto.
Qed.

Lemma build_never_raises noise_type seed x custom_noise_opt sigmas :
  quiet -> never_raises missing_model
             (build_noise_sampler noise_type seed x custom_noise_opt sigmas).
Proof.
  intros (Hmake & Hget & _). unfold build_noise_sampler.
  destruct (sigma_bounds sigmas) as [[[lo hi] sigma] sigma_next].
  destruct custom_noise_opt as [custom|]; [apply Hmake|].
  destruct (NoiseType_getitem noise_type) as [member|]; [apply Hget|].
  intros p. split; [discriminate | intros ns; discriminate].
Qed.

Lemma sampling_avoids_missing_model seed lat add_to_latent repeat_batch sigmas
    (ns : sampler_of rng_state) m :
  (forall a b p, fst (ns a b p) <> Raise missing_model) ->
  (forall t u n, add_repeated t u n <> Raise missing_model) ->
  avoids missing_model (sampling seed lat add_to_latent repeat_batch sigmas ns m).
Proof.
  intros Hns Hadd. unfold sampling.
  destruct (sigma_bounds sigmas) as [[[lo hi] sigma] sigma_next].
  apply avoids_bind; [intros p; discriminate | intros randst].
  apply avoids_bind.
  - apply avoids_try_finally; [|intros p; discriminate].
    apply avoids_bind;
      [ destruct seed; [intros p; discriminate | apply avoids_raise; discriminate]
      | intros _ ].
    apply avoids_bind; [apply avoids_for_each; intros _ p; apply Hns|].
    intros noises; apply avoids_lift_result.
    unfold cat; destruct noises; [discriminate|].
    destruct (forallb _ _); discriminate.
  - intros result. apply avoids_bind; [|auto with py].
    destruct add_to_latent; auto with py.
Qed.

(** Past the test for a missing model, nothing in [go] raises its error. *)
Lemma go_avoids_missing_model noise_type seed lat multiplier add_to_latent
    repeat_batch custom_noise_opt mul_by_sigmas_opt model_opt :
  quiet ->
  longer_than 0 mul_by_sigmas_opt = false \/ model_opt <> None ->
  avoids missing_model
    (go noise_type seed lat multiplier add_to_latent repeat_batch
       custom_noise_opt mul_by_sigmas_opt model_opt).
Proof.
  intros Hq Hguard p. rewrite go_steps.
  destruct (scaled_multiplier multiplier mul_by_sigmas_opt model_opt) as [m|e] eqn:Hm.
  - pose proof (build_never_raises noise_type seed (samples lat) custom_noise_opt
                  mul_by_sigmas_opt Hq p) as [Hraise Hcalls].
    destruct (build_noise_sampler _ _ _ _ _ p) as [[ns|e] p1];
      [|simpl in *; congruence].
    apply sampling_avoids_missing_model; [|apply Hq].
    intros a b p'. apply (Hcalls ns); reflexivity.
  - simpl. intros [= ->]. unfold scaled_multiplier in Hm.
    destruct (longer_than 0 mul_by_sigmas_opt); [|discriminate].
    destruct model_opt as [model|]; [|destruct Hguard; congruence].
    unfold py_div in Hm. destruct (_ =? _)%float; discriminate.
Qed.

(** C6, as the code has it: [go] raises its invalid-configuration error
    exactly when a non-empty sigmas tensor is connected and no model is; it
    does not raise it when a model is connected, when no sigmas are
    connected, or when the connected sigmas are empty. (The functions that
    [go] calls are taken not to raise this very error themselves.) *)
Theorem go_missing_model_iff noise_type seed lat multiplier add_to_latent
    repeat_batch custom_noise_opt mul_by_sigmas_opt model_opt
    (p : process rng_state) :
  quiet ->
  fst (go noise_type seed lat multiplier add_to_latent repeat_batch
         custom_noise_opt mul_by_sigmas_opt model_opt p) = Raise missing_model
  <-> (exists s, mul_by_sigmas_opt = Some s /\ s <> []) /\ model_opt = None.
Proof.
  intros Hq. split.
  - intros Hraise.
    destruct (longer_than 0 mul_by_sigmas_opt) eqn:Hlen.
    + destruct model_opt as [model|].
      * exfalso. revert Hraise. apply go_avoids_missing_model; auto.
      * split; [|reflexivity].
        destruct mul_by_sigmas_opt as [[|s0 s]|]; try discriminate.
        eexists; split; [reflexivity | discriminate].
    + exfalso. revert Hraise. apply go_avoids_missing_model; auto.
  - intros [(s & -> & Hs) ->]. rewrite go_steps. unfold scaled_multiplier.
    destruct s; [congruence | reflexivity].
Qed.

(** C10: with a connected sigmas tensor of length zero, [go] behaves in every
    respect as it does with no sigmas connected, for the same other
    arguments: same outcome and same final state, hence the same multiplier
    and the same absent sigma bounds; and with no model connected it does
    not raise its invalid-configuration error. *)
Theorem go_empty_sigmas noise_type seed lat multiplier add_to_latent
    repeat_batch custom_noise_opt (p : process rng_state) :
  quiet ->
  go noise_type seed lat multiplier add_to_latent repeat_batch
     custom_noise_opt (Some []) None p
  = go noise_type seed lat multiplier add_to_latent repeat_batch
       custom_noise_opt None None p
  /\ fst (go noise_type seed lat multiplier add_to_latent repeat_batch
            custom_noise_opt (Some []) None p) <> Raise missing_model.
Proof.
  intros Hq. split; [reflexivity|].
  apply go_avoids_missing_model; auto.
Qed.

End NoisyLatentLikeFacts.

(** ** The adapter to the host's noise interface: a multiplier of zero *)

Section ZeroMultiplier.
Context `{Env}.
Import CustomNOISE.

Lemma zeros_all_zero sh dt ly dv :
  Forall (fun v => v = 0%float) (data (zeros sh dt ly dv))
  /\ length (data (zeros sh dt ly dv)) = numel_of sh.
Proof.
  simpl. split; [|apply repeat_length].
  apply Forall_forall. intros v Hv. apply list_elem_of_In in Hv.
  exact (repeat_spec _ _ _ Hv).
Qed.

(** C3: when the multiplier is zero, [generate_noise] returns the tensor of
    zeros that has the shape, element type and layout of the target latent
    and lives on the CPU; it has then seeded the tensor generators and the
    general-purpose generator from its seed, and it has drawn no noise
    sample. *)
Theorem generate_noise_zero_multiplier (self : t) (input_latent : latent) (w : world) :
  (multiplier self =? 0)%float = true ->
  let x := samples input_latent in
  exists out,
    generate_noise self input_latent w
    = (Ok out,
       {| generators := {| torch_rng := torch_seeded (seed self);
                           device_rng := device_seeded (seed self);
                           random_rng := random_seeded (seed self) |};
          drawn := drawn w |})
    /\ out = zeros (shape x) (t_dtype x) (t_layout x) cpu
    /\ shape out = shape x /\ t_dtype out = t_dtype x
    /\ t_layout out = t_layout x /\ t_device out = cpu
    /\ Forall (fun v => v = 0%float) (data out)
    /\ length (data out) = numel_of (shape x).
Proof.
  intros Hzero x. eexists. split; [|split; [reflexivity|]].
  - unfold generate_noise, bind. simpl. rewrite Hzero. reflexivity.
  - repeat split; try reflexivity; apply zeros_all_zero.
Qed.

End ZeroMultiplier.

(** ** The properties above, at concrete inputs *)

Lemma generate_noise_zero_multiplier_witness :
  exists out,
    CustomNOISE.generate_noise Runs.silent Runs.plain_latent Runs.fresh_world
    = (Ok out, Runs.world_of (Runs.seeded 42) [])
    /\ out = zeros [2; 1; 1; 2]%nat float32 strided cpu
    /\ shape out = [2; 1; 1; 2]%nat /\ t_dtype out = float32
    /\ t_layout out = strided /\ t_device out = cpu
    /\ Forall (fun v => v = 0%float) (data out)
    /\ length (data out) = 4%nat.
Proof.
  apply (generate_noise_zero_multiplier (H := Demo.env)
           Runs.silent Runs.plain_latent Runs.fresh_world).
  reflexivity.
Defined.

Lemma go_missing_model_iff_witness :
  fst (NoisyLatentLikeNode.go (H := Demo.env) "gaussian" (Some 1) Runs.plain_latent
         1%float false 1 None (Some [14.5; 0]%float) None Runs.rest_state)
    = Raise NoisyLatentLikeNode.missing_model
  <-> (exists s, Some [14.5; 0]%float = Some s /\ s <> []) /\ @None model_obj = None.
Proof.
  apply (go_missing_model_iff (H := Demo.env)).
  repeat split; try discriminate;
    try (intros ns [= <-] a b p'; discriminate); intros; discriminate.
Defined.

Lemma go_empty_sigmas_witness :
  NoisyLatentLikeNode.go (H := Demo.env) "gaussian" (Some 1) Runs.plain_latent
    1%float false 1 None (Some []) None Runs.rest_state
  = NoisyLatentLikeNode.go (H := Demo.env) "gaussian" (Some 1) Runs.plain_latent
      1%float false 1 None None None Runs.rest_state
  /\ fst (NoisyLatentLikeNode.go (H := Demo.env) "gaussian" (Some 1) Runs.plain_latent
            1%float false 1 None (Some []) None Runs.rest_state)
     <> Raise NoisyLatentLikeNode.missing_model.
Proof.
  apply (go_empty_sigmas (H := Demo.env)).
  repeat split; try discriminate;
    try (intros ns [= <-] a b p'; discriminate); intros; discriminate.
Defined.

(** C6, counterexample to the claim as stated: a sigmas tensor is connected,
    no model is, and [go] returns a latent instead of raising. *)
Lemma empty_sigmas_without_model_accepted :
  is_ok (fst (NoisyLatentLikeNode.go (H := Demo.env) "gaussian" (Some 1)
                Runs.plain_latent 1%float false 1 None (Some []) None
                Runs.rest_state)) = true.
Proof. vm_compute. reflexivity. Qed.

(** C5, counterexample to the claim as stated: [go] is called with the seed
    1 while the generators of the accelerators are in a state of their own.
    It returns a latent; the default CPU generator is back in the state it
    had, and the generators of the accelerators are left as
    [torch.random.manual_seed(1)] seeded them. *)
Lemma go_leaves_accelerators_seeded :
  let out := NoisyLatentLikeNode.go (H := Demo.env) "gaussian" (Some 1)
               Runs.plain_latent 1%float false 1 None None None Runs.rest_state in
  is_ok (fst out) = true
  /\ torch_rng (snd out) = torch_rng Runs.rest_state
  /\ device_rng Runs.rest_state = (7, 9%nat)
  /\ device_rng (snd out) = (1, 0%nat).
Proof. vm_compute. repeat split; reflexivity. Qed.

(** C1, the code at an input that tells the two flags apart: with the port
    [normalize_dst] set to "forced" and the port [normalize_src] set to
    "disabled", the composite item is built with [normalize_dst = False] and
    [normalize_src = True]. *)
Lemma composite_flags_interchanged :
  SonarCompositeNoiseNode.go (H := Demo.env) 1%float 0%nat 1%nat
    (* normalize_src = *) "disabled" (* normalize_dst = *) "forced"
    (* normalize_result = *) "default" Runs.image Runs.two_chains
  = (Ok 2%nat,
     Runs.two_chains
     ++ [[{| Noise.factor := 1%float;
             Noise.kwargs :=
               Noise.CompositeNoise 0%nat 1%nat
                 (* normalize_dst = *) (Some false)
                 (* normalize_src = *) (Some true)
                 (* normalize_result = *) None Runs.image |}]]).
Proof. reflexivity. Qed.

(** ** The noise-composition nodes and the chains they share *)

Section ChainFacts.
Context `{Env}.
Import Noise.

Lemma lookup_fresh (h : store) items : (h ++ [items]) !! length h = Some items.
Proof. apply list_lookup_middle. reflexivity. Qed.

Lemma insert_fresh (h : store) items items' :
  <[length h := items']> (h ++ [items]) = h ++ [items'].
Proof.
  rewrite insert_app_r_alt by lia. rewrite Nat.sub_diag. reflexivity.
Qed.

Lemma clone_run chain items (h : store) :
  h !! chain = Some items -> clone chain h = (Ok (length h), h ++ [items]).
Proof. intros Hl. unfold clone, bind, read, alloc. rewrite Hl. reflexivity. Qed.

Lemma add_fresh_run (h : store) items item :
  add (length h) item (h ++ [items]) = (Ok tt, h ++ [items ++ [item]]).
Proof.
  unfold add, bind, read, write. rewrite lookup_fresh, insert_fresh. reflexivity.
Qed.

Lemma rescaled_fresh_run (h : store) items target :
  rescaled (length h) target (h ++ [items])
  = (Ok (S (length h)), h ++ [items; rescale_items target items]).
Proof.
  unfold rescaled, bind, read, alloc. rewrite lookup_fresh.
  rewrite length_app, <- app_assoc. simpl. f_equal. f_equal. lia.
Qed.

(** The whole of [go], run on a store in which the connected chain, if any,
    is present. *)
Lemma go_run factor rescale sonar_custom_noise_opt kw (h : store) items :
  connected_items sonar_custom_noise_opt h = Some items ->
  let nis := if negb (factor =? 0)%float
             then items ++ [{| Noise.factor := factor; Noise.kwargs := kw |}]
             else items in
  SonarCustomNoiseNodeBase.go factor rescale sonar_custom_noise_opt kw h
  = if (rescale =? 0)%float
    then (Ok (length h), h ++ [nis])
    else (Ok (S (length h)), h ++ [nis; rescale_items rescale nis]).
Proof.
  intros Hc nis. unfold SonarCustomNoiseNodeBase.go.
  assert (Hfirst :
    match sonar_custom_noise_opt with
    | Some chain => clone chain
    | None => CustomNoiseChain
    end h = (Ok (length h), h ++ [items])).
  { destruct sonar_custom_noise_opt as [chain|]; simpl in Hc.
    - apply clone_run, Hc.
    - injection Hc as <-. reflexivity. }
  unfold bind at 1. rewrite Hfirst. unfold bind at 1. subst nis.
  destruct (factor =? 0)%float; simpl.
  - destruct (rescale =? 0)%float; [reflexivity | apply rescaled_fresh_run].
  - rewrite add_fresh_run.
    destruct (rescale =? 0)%float; [reflexivity | apply rescaled_fresh_run].
Qed.

Lemma rescale_items_length target (items : list chain_item) :
  length (rescale_items target items) = length items.
Proof.
  unfold rescale_items. destruct (target =? 0)%float; [reflexivity|].
  apply length_map.
Qed.

Lemma rescale_items_kwargs target (items : list chain_item) :
  map kwargs (rescale_items target items) = map kwargs items.
Proof.
  unfold rescale_items. destruct (target =? 0)%float; [reflexivity|].
  rewrite map_map. reflexivity.
Qed.

Lemma lookup_second (h : store) (x y : list chain_item) :
  (h ++ [x; y]) !! S (length h) = Some y.
Proof.
  replace (h ++ [x; y]) with ((h ++ [x]) ++ [y])
    by (rewrite <- app_assoc; reflexivity).
  replace (S (length h)) with (length (h ++ [x]))
    by (rewrite length_app; simpl; lia).
  apply lookup_fresh.
Qed.

(** The chain that the inherited [go] returns: a new object, which holds
    the items of the connected chain, then the item of the node unless the
    factor is zero, all of them rescaled. *)
Lemma base_go_spec factor rescale sonar_custom_noise_opt kw (h : store) items :
  connected_items sonar_custom_noise_opt h = Some items ->
  let own := if (factor =? 0)%float then []
             else [{| Noise.factor := factor; Noise.kwargs := kw |}] in
  exists out new,
    SonarCustomNoiseNodeBase.go factor rescale sonar_custom_noise_opt kw h
    = (Ok out, h ++ new)
    /\ (length h <= out)%nat
    /\ (h ++ new) !! out = Some (rescale_items rescale (items ++ own)).
Proof.
  intros Hc own. rewrite (go_run factor rescale _ kw h items Hc). cbv zeta.
  assert (Hnis : (if negb (factor =? 0)%float
                  then items ++ [{| Noise.factor := factor; Noise.kwargs := kw |}]
                  else items) = items ++ own).
  { subst own. destruct (factor =? 0)%float; simpl; [rewrite app_nil_r|]; reflexivity. }
  rewrite Hnis. destruct (rescale =? 0)%float eqn:Hr.
  - exists (length h), [items ++ own]. split; [reflexivity|]. split; [lia|].
    rewrite lookup_fresh. unfold rescale_items. rewrite Hr. reflexivity.
  - exists (S (length h)), [items ++ own; rescale_items rescale (items ++ own)].
    split; [reflexivity|]. split; [lia|]. apply lookup_second.
Qed.

(** What a node does that calls the inherited [go] with its item alone. *)
Lemma wrapper_spec factor kw (h : store) :
  let own := if (factor =? 0)%float then []
             else [{| Noise.factor := factor; Noise.kwargs := kw |}] in
  SonarCustomNoiseNodeBase.go factor 0%float None kw h
  = (Ok (length h), h ++ [own]).
Proof.
  intros own. rewrite (go_run factor 0%float None kw h []) by reflexivity.
  cbv zeta. change (0 =? 0)%float with true. cbv iota.
  subst own. destruct (factor =? 0)%float; reflexivity.
Qed.

Ltac wrapper_case f Hframe :=
  rewrite wrapper_spec;
  eexists _, _, _; split; [reflexivity|]; split; [lia|];
  split; [rewrite lookup_fresh; reflexivity|]; split; [apply Hframe|];
  destruct (f =? 0)%float; [reflexivity|]; eexists; split; reflexivity.

Ltac cloning_case f h Hcp Hframe :=
  unfold bind at 1; rewrite (clone_run _ _ _ Hcp);
  rewrite wrapper_spec; rewrite <- app_assoc; cbn [app];
  rewrite length_app; cbn [length];
  replace (length h + 1)%nat with (S (length h)) by lia;
  eexists _, _, _; split; [reflexivity|]; split; [lia|];
  split; [rewrite lookup_second; reflexivity|];
  split; [apply Hframe|];
  destruct (f =? 0)%float; [reflexivity|]; eexists; split; [reflexivity|];
  cbn [wrapped_chains]; constructor; [|constructor]; split; [lia|];
  rewrite Hcp; apply list_lookup_middle; reflexivity.

(** What a node call makes of the store, when its filter, if it has one,
    can be had. *)
Lemma node_run_spec (c : Host.node_call) (h : store) items :
  connected_items (chain_input c) h = Some items ->
  (clones_wrapped c = true -> Forall (fun a => is_Some (h !! a)) (wrapped_inputs c)) ->
  filter_error c = None ->
  exists out new own,
    Host.run c h = (Ok out, h ++ new)
    /\ (length h <= out)%nat
    /\ (h ++ new) !! out = Some (rescale_items (rescale_of c) (items ++ own))
    /\ (forall a, (a < length h)%nat -> (h ++ new) !! a = h !! a)
    /\ if (factor_of c =? 0)%float then own = []
       else exists k,
         own = [{| Noise.factor := factor_of c; Noise.kwargs := k |}]
         /\ if clones_wrapped c
            then Forall2 (fun a a' => (length h <= a')%nat
                                      /\ (h ++ new) !! a' = h !! a)
                   (wrapped_inputs c) (wrapped_chains k)
            else wrapped_chains k = wrapped_inputs c.
Proof.
  intros Hc Hw Hf.
  assert (Hframe : forall new a, (a < length h)%nat -> (h ++ new) !! a = h !! a).
  { intros new a Ha. apply lookup_app_l, Ha. }
  destruct c as [f r nt opt | f a mt dims st nr nn nref ref | f a rl mr nm pm
                | mdl f a sp ep nm fb | f dst src ns nd nr msk
                | f lat a nn nr nref meth gf | f a mc nm
                | f a bm fname fcustom fs fst fth em es aff nr nn];
    cbn [Host.run chain_input rescale_of factor_of clones_wrapped
           wrapped_inputs] in *.
  - unfold SonarCustomNoiseNode.go.
    destruct (base_go_spec f r opt (CustomNoiseItem nt) h items Hc)
      as (out & new & Hrun & Hout & Hl).
    exists out, new, (if (f =? 0)%float then []
                      else [{| Noise.factor := f;
                               Noise.kwargs := CustomNoiseItem nt |}]).
    split; [exact Hrun|]. split; [exact Hout|]. split; [exact Hl|].
    split; [apply Hframe|].
    destruct (f =? 0)%float; [reflexivity|]. eexists. split; reflexivity.
  - injection Hc as <-. unfold SonarModulatedNoiseNode.go. wrapper_case f Hframe.
  - injection Hc as <-. unfold SonarRepeatedNoiseNode.go. wrapper_case f Hframe.
  - injection Hc as <-. unfold SonarScheduledNoiseNode.go. wrapper_case f Hframe.
  - injection Hc as <-. unfold SonarCompositeNoiseNode.go. wrapper_case f Hframe.
  - injection Hc as <-. specialize (Hw eq_refl).
    apply Forall_singleton in Hw as [cp Hcp].
    unfold SonarGuidedNoiseNode.go. cloning_case f h Hcp Hframe.
  - injection Hc as <-. unfold SonarRandomNoiseNode.go. wrapper_case f Hframe.
  - injection Hc as <-. specialize (Hw eq_refl).
    apply Forall_singleton in Hw as [cp Hcp].
    unfold SonarBlendFilterNoiseNode.go. unfold bind at 1. unfold lift_result.
    cbn [filter_error] in Hf.
    destruct (negb (String.eqb (strip fcustom) "")).
    + destruct (literal_eval_list (strip fcustom)) as [flt|e]; [|discriminate].
      cloning_case f h Hcp Hframe.
    + destruct (FILTER_PRESETS fname) as [flt|]; [|discriminate].
      cloning_case f h Hcp Hframe.
Qed.

(** A node call whose filter cannot be had raises, and touches nothing. *)
Lemma filter_error_run (c : Host.node_call) (h : store) e :
  filter_error c = Some e -> Host.run c h = (Raise e, h).
Proof.
  destruct c; try discriminate. cbn [filter_error Host.run].
  unfold SonarBlendFilterNoiseNode.go. unfold bind at 1. unfold lift_result.
  destruct (negb (String.eqb (strip ffilter_custom) "")).
  - destruct (literal_eval_list (strip ffilter_custom)); [discriminate|].
    intros [= ->]. reflexivity.
  - destruct (FILTER_PRESETS ffilter_name); [discriminate|].
    intros [= <-]. reflexivity.
Qed.

(** C2, as the code has it, for each of the eight nodes and for a store in
    which the chains connected to the call are present: invoked with a
    factor of zero, a node appends no item. SonarBlendFilterNoise raises, and
    touches nothing, when its filter cannot be had; in every other case the
    node returns a chain that is a new object. With a rescale target of zero
    that chain holds exactly the items of the chain connected to the chain
    input, and with any other target it holds those items, as many and of
    the same kinds, with their factors rescaled to the target. Only
    SonarCustomNoise has a chain input and a rescale target: the chain that
    any other node returns is empty. *)
Theorem go_zero_factor (c : Host.node_call) (h : store) items :
  (factor_of c =? 0)%float = true ->
  connected_items (chain_input c) h = Some items ->
  (clones_wrapped c = true -> Forall (fun a => is_Some (h !! a)) (wrapped_inputs c)) ->
  match filter_error c with
  | Some e => Host.run c h = (Raise e, h)
  | None =>
      exists out h',
        Host.run c h = (Ok out, h')
        /\ (length h <= out)%nat
        /\ h' !! out = Some (rescale_items (rescale_of c) items)
        /\ ((rescale_of c =? 0)%float = true -> h' !! out = Some items)
        /\ length (rescale_items (rescale_of c) items) = length items
        /\ map kwargs (rescale_items (rescale_of c) items) = map kwargs items
        /\ (chain_input c = None -> h' !! out = Some [])
  end.
Proof.
  intros Hzero Hc Hw.
  destruct (filter_error c) as [e|] eqn:Hf; [apply filter_error_run, Hf|].
  destruct (node_run_spec c h items Hc Hw Hf)
    as (out & new & own & Hrun & Hout & Hl & _ & Hown).
  rewrite Hzero in Hown. subst own. rewrite app_nil_r in Hl.
  assert (Hid : (rescale_of c =? 0)%float = true ->
                rescale_items (rescale_of c) items = items).
  { intros E. unfold rescale_items. rewrite E. reflexivity. }
  exists out, (h ++ new). split; [exact Hrun|]. split; [exact Hout|].
  split; [exact Hl|]. split; [intros E; etransitivity; [exact Hl | f_equal; exact (Hid E)]|].
  split; [apply rescale_items_length|]. split; [apply rescale_items_kwargs|].
  intros Hnone. rewrite Hnone in Hc. injection Hc as <-.
  etransitivity; [exact Hl|].
  unfold rescale_items. destruct (rescale_of c =? 0)%float; reflexivity.
Qed.

(** Whatever it is given, [go] only adds objects to the store. *)
Lemma go_store_grows factor rescale sonar_custom_noise_opt kw (h : store) :
  exists new,
    snd (SonarCustomNoiseNodeBase.go factor rescale sonar_custom_noise_opt kw h)
    = h ++ new.
Proof.
  destruct (connected_items sonar_custom_noise_opt h) as [items|] eqn:Hc.
  - rewrite (go_run factor rescale _ kw h items Hc).
    destruct (rescale =? 0)%float; eexists; reflexivity.
  - destruct sonar_custom_noise_opt as [chain|]; [|discriminate]. simpl in Hc.
    exists []. unfold SonarCustomNoiseNodeBase.go, bind, clone, bind, read.
    rewrite Hc. simpl. rewrite app_nil_r. reflexivity.
Qed.

(** A computation that only adds objects to the store. *)
Lemma grows_bind {A B} (m : Py store A) (k : A -> Py store B) :
  (forall h, exists new, snd (m h) = h ++ new) ->
  (forall a h, exists new, snd (k a h) = h ++ new) ->
  forall h, exists new, snd (bind m k h) = h ++ new.
Proof.
  intros Hm Hk h. unfold bind. destruct (Hm h) as [new Hnew].
  destruct (m h) as [[a|e] h1]; simpl in Hnew; subst h1.
  - destruct (Hk a (h ++ new)) as [new' Hnew']. exists (new ++ new').
    rewrite Hnew', app_assoc. reflexivity.
  - exists new. reflexivity.
Qed.

Lemma clone_grows chain (h : store) : exists new, snd (clone chain h) = h ++ new.
Proof.
  unfold clone, bind, read, alloc. destruct (h !! chain) as [items|].
  - exists [items]. reflexivity.
  - exists []. simpl. rewrite app_nil_r. reflexivity.
Qed.

(** X16: whichever noise-composition node is run, and whatever its ports hold,
    every object of the store holds afterwards what it held before: the
    chains connected to the node are read, cloned or referred to, and never
    written. *)
Lemma every_node_keeps_the_store (c : Host.node_call) (h : store) :
  exists new, snd (Host.run c h) = h ++ new.
Proof.
  destruct c; simpl.
  1-5, 7: apply go_store_grows.
  - unfold SonarGuidedNoiseNode.go. apply grows_bind.
    + intros h'. apply clone_grows.
    + intros a h'. apply go_store_grows.
  - unfold SonarBlendFilterNoiseNode.go. apply grows_bind.
    + intros h'. exists []. unfold lift_result. simpl. rewrite app_nil_r. reflexivity.
    + intros f h'. apply grows_bind.
      * intros h''. apply clone_grows.
      * intros a h''. apply go_store_grows.
Qed.


End ChainFacts.

Lemma go_zero_factor_witness :
  exists out h',
    Host.run (H := Demo.env)
      (Host.SonarCustomNoise 0%float 4%float "gaussian" (Some 0%nat))
      Runs.two_chains
    = (Ok out, h')
    /\ (length Runs.two_chains <= out)%nat
    /\ h' !! out
       = Some (Noise.rescale_items 4%float [Runs.gaussian 1; Runs.gaussian 1])
    /\ ((4 =? 0)%float = true -> h' !! out = Some [Runs.gaussian 1; Runs.gaussian 1])
    /\ length (Noise.rescale_items 4%float [Runs.gaussian 1; Runs.gaussian 1])
       = length [Runs.gaussian 1; Runs.gaussian 1]
    /\ map Noise.kwargs (Noise.rescale_items 4%float [Runs.gaussian 1; Runs.gaussian 1])
       = map Noise.kwargs [Runs.gaussian 1; Runs.gaussian 1]
    /\ (Some 0%nat = None -> h' !! out = Some []).
Proof.
  apply (go_zero_factor (H := Demo.env)
           (Host.SonarCustomNoise 0%float 4%float "gaussian" (Some 0%nat))
           Runs.two_chains [Runs.gaussian 1; Runs.gaussian 1]);
    [reflexivity | reflexivity | discriminate].
Defined.

(** C2, counterexample to the claim as stated: the node is invoked with a
    factor of 0 and a rescale target of 4 on a chain whose two items have
    factor 1; the chain it returns has two items of factor 2, and so differs
    from the input chain. *)
Lemma zero_factor_rescale_changes_chain :
  SonarCustomNoiseNode.go (H := Demo.env) 0%float 4%float "gaussian" (Some 0%nat)
    Runs.two_chains
  = (Ok 3%nat,
     Runs.two_chains ++ [[Runs.gaussian 1; Runs.gaussian 1];
                         [Runs.gaussian 2; Runs.gaussian 2]])
  /\ Runs.two_chains !! 0%nat = Some [Runs.gaussian 1; Runs.gaussian 1]
  /\ [Runs.gaussian 2; Runs.gaussian 2] <> [Runs.gaussian 1; Runs.gaussian 1].
Proof.
  split; [reflexivity|]. split; [reflexivity|].
  intros Heq.
  apply (f_equal (fun l => match l with
                           | it :: _ => (Noise.factor it =? 1)%float
                           | [] => true
                           end)) in Heq.
  vm_compute in Heq. discriminate.
Qed.



(** ** SamplerConfigOverride *)

Section OverrideFacts.
Context `{Env}.
Import SamplerNodeConfigOverride.

Lemma cfg_lookups sampler member custom s_noise eta s_churn r sde_solver cpu nrm :
  let cfg := override_sampler_cfg sampler member custom s_noise eta s_churn r
               sde_solver cpu nrm in
  cfg !! "sampler" = Some sampler
  /\ dict_get cfg "noise_type" = member
  /\ dict_get cfg "custom_noise" = custom
  /\ dict_get cfg "s_noise" = PFloat s_noise
  /\ dict_get cfg "eta" = PFloat eta
  /\ dict_get cfg "s_churn" = PFloat s_churn
  /\ dict_get cfg "r" = PFloat r
  /\ dict_get cfg "solver_type" = PStr sde_solver
  /\ dict_get_or cfg "cpu_noise" (PBool true) = PBool cpu
  /\ dict_get_or cfg "normalize" (PBool true) = PBool nrm
  /\ falsy (PDict cfg) = false.
Proof.
  unfold override_sampler_cfg, dict_get, dict_get_or.
  repeat split; try (simplify_map_eq; reflexivity).
  all: simpl; apply bool_decide_eq_false; apply insert_non_empty.
Qed.






End OverrideFacts.


(** ** The adapter to the host's noise interface: batch indices *)

Section UniqueFacts.

Lemma elem_of_insert_unique i x l :
  i ∈ insert_unique x l <-> i = x \/ i ∈ l.
Proof.
  induction l as [|y l IH]; simpl.
  - rewrite list_elem_of_singleton, elem_of_nil. tauto.
  - destruct (Z.ltb_spec x y); [rewrite !elem_of_cons; tauto|].
    destruct (Z.eqb_spec x y) as [->|Hne].
    + rewrite !elem_of_cons. tauto.
    + rewrite !elem_of_cons, IH. tauto.
Qed.

Lemma insert_unique_sorted x l :
  StronglySorted Z.lt l -> StronglySorted Z.lt (insert_unique x l).
Proof.
  induction l as [|y l IH]; simpl; intros Hs.
  - repeat constructor.
  - apply StronglySorted_cons in Hs as [Hy Hl].
    destruct (Z.ltb_spec x y).
    + apply StronglySorted_cons. split.
      * constructor; [assumption|].
        eapply Forall_impl; [exact Hy|]. intros; simpl in *; lia.
      * apply StronglySorted_cons; auto.
    + destruct (Z.eqb_spec x y); [apply StronglySorted_cons; auto|].
      apply StronglySorted_cons. split; [|auto].
      apply Forall_forall. intros i Hi.
      apply elem_of_insert_unique in Hi as [->|Hi]; [lia|].
      rewrite Forall_forall in Hy. auto.
Qed.

Lemma np_unique_spec (a : list Z) :
  StronglySorted Z.lt (np_unique a).1
  /\ (forall i, i ∈ (np_unique a).1 <-> i ∈ a)
  /\ (np_unique a).2 = map (fun x => index_of x (np_unique a).1) a.
Proof.
  unfold np_unique; simpl. split; [|split; [|reflexivity]].
  - induction a; simpl; [constructor | apply insert_unique_sorted; assumption].
  - induction a as [|x a IH]; intros i; simpl; [reflexivity|].
    rewrite elem_of_insert_unique, elem_of_cons, IH. tauto.
Qed.

Lemma index_of_lookup i (u : list Z) : i ∈ u -> u !! index_of i u = Some i.
Proof.
  induction u as [|y u IH]; intros Hi; [inversion Hi|]. simpl.
  destruct (Z.eqb_spec i y) as [->|Hne]; [reflexivity|].
  apply elem_of_cons in Hi as [?|Hi]; [congruence|]. simpl. auto.
Qed.

Lemma sorted_last (u : list Z) top :
  StronglySorted Z.lt u -> last u = Some top ->
  top ∈ u /\ forall i, i ∈ u -> i <= top.
Proof.
  intros Hs Hl. apply last_Some in Hl as [l' ->].
  split; [apply elem_of_app; right; left|]. intros i Hi.
  apply elem_of_app in Hi as [Hi|Hi].
  - apply StronglySorted_app in Hs as (Hlt & _ & _).
    apply Z.lt_le_incl, Hlt; [exact Hi | left].
  - apply list_elem_of_singleton in Hi. lia.
Qed.

End UniqueFacts.

Section BatchIndexFacts.
Context `{Env}.
Import CustomNOISE.

Lemma sample_index_run self x bs u res idx w :
  bs <> 0%nat ->
  sample_index self x bs u res idx w
  = match sample_at self x bs idx w with
    | (Ok n, w') => (Ok (if bool_decide (idx ∈ u) then res ++ [n] else res), w')
    | (Raise e, w') => (Raise e, w')
    end.
Proof.
  intros Hbs. unfold sample_index, sample_at, py_mod.
  destruct (Nat.eqb_spec bs 0) as [E|_]; [contradiction|].
  unfold bind at 1. simpl. unfold bind.
  destruct (_sample_noise _ _ _ w) as [[n|e] w']; reflexivity.
Qed.

Lemma loop_run self x bs u items acc w :
  bs <> 0%nat ->
  for_loop (sample_index self x bs u) items acc w
  = match for_each (sample_at self x bs) items w with
    | (Ok ns, w') => (Ok (acc ++ keep u items ns), w')
    | (Raise e, w') => (Raise e, w')
    end.
Proof.
  intros Hbs. revert acc w.
  induction items as [|a items IH]; intros acc w.
  - simpl. unfold ret. rewrite app_nil_r. reflexivity.
  - rewrite for_loop_cons, for_each_cons, sample_index_run by assumption.
    destruct (sample_at self x bs a w) as [[n|e] w1]; [|reflexivity].
    rewrite IH.
    destruct (for_each (sample_at self x bs) items w1) as [[ns|e] w2];
      [|reflexivity].
    simpl. destruct (bool_decide (a ∈ u)); [|reflexivity].
    rewrite <- app_assoc. reflexivity.
Qed.

Lemma draw_drawn self x s w :
  drawn (snd (draw self x s w)) = drawn w ++ [(x, s)].
Proof. unfold draw. destruct (bind _ _ _) as [r g]. reflexivity. Qed.

Lemma sample_noise_drawn self x s w :
  drawn (snd (_sample_noise self x s w)) = drawn w ++ [(x, s)].
Proof.
  unfold _sample_noise, bind. pose proof (draw_drawn self x s w) as Hd.
  destruct (draw self x s w) as [[sample|e] w1]; [|exact Hd].
  destruct (negb _); [destruct (layout_eqb _ _)|]; exact Hd.
Qed.

Lemma for_each_drawn self x bs items w ns w' :
  for_each (sample_at self x bs) items w = (Ok ns, w') ->
  drawn w'
  = drawn w
    ++ map (fun idx => (example x (Z.to_nat (idx mod Z.of_nat bs)), seed self + idx))
         items.
Proof.
  revert w ns. induction items as [|a items IH]; intros w ns.
  - intros [= _ <-]. simpl. rewrite app_nil_r. reflexivity.
  - rewrite for_each_cons.
    pose proof (sample_noise_drawn self
                  (example x (Z.to_nat (a mod Z.of_nat bs))) (seed self + a) w) as Hd.
    fold (sample_at self x bs a) in Hd.
    destruct (sample_at self x bs a w) as [[b|e] w1]; [|discriminate].
    destruct (for_each (sample_at self x bs) items w1) as [[bs'|e] w2] eqn:E;
      [|discriminate].
    intros [= _ <-]. rewrite (IH _ _ E). simpl in Hd. rewrite Hd.
    rewrite <- app_assoc. reflexivity.
Qed.

Lemma keep_ext u u' items ns :
  (forall i, i ∈ items -> i ∈ u <-> i ∈ u') ->
  keep u items ns = keep u' items ns.
Proof.
  revert ns. induction items as [|a items IH]; intros ns Hext; [reflexivity|].
  destruct ns as [|n ns]; [reflexivity|]. simpl.
  rewrite (bool_decide_ext (a ∈ u) (a ∈ u')) by (apply Hext; left).
  rewrite IH by (intros i Hi; apply Hext; right; exact Hi). reflexivity.
Qed.

(** When [u] is increasing and lies within the indices [a, a+1, ...] for
    which samples were drawn, the samples kept are those of the elements of
    [u], in the order of [u]. *)
Lemma keep_lookup (ns : list tensor) : forall (u : list Z) a,
  StronglySorted Z.lt u ->
  (forall i, i ∈ u -> a <= i < a + Z.of_nat (length ns)) ->
  length (keep u (seqZ a (Z.of_nat (length ns))) ns) = length u
  /\ forall j i, u !! j = Some i ->
       keep u (seqZ a (Z.of_nat (length ns))) ns !! j = ns !! Z.to_nat (i - a).
Proof.
  induction ns as [|n ns IH]; intros u a Hs Hb.
  - destruct u as [|x u]; [split; [reflexivity | intros j i Hj; inversion Hj]|].
    specialize (Hb x ltac:(left)). simpl in Hb. lia.
  - cbn [length]. rewrite seqZ_cons by lia.
    replace (Z.pred (Z.of_nat (S (length ns)))) with (Z.of_nat (length ns)) by lia.
    cbn [keep].
    assert (Hnot : forall i, i ∈ seqZ (Z.succ a) (Z.of_nat (length ns)) -> i <> a).
    { intros i Hi. apply elem_of_seqZ in Hi. lia. }
    destruct (decide (a ∈ u)) as [Hin|Hout].
    + rewrite bool_decide_eq_true_2 by assumption.
      destruct u as [|x u]; [inversion Hin|].
      apply StronglySorted_cons in Hs as [Hx Hs]. rewrite Forall_forall in Hx.
      assert (x = a) as ->.
      { apply elem_of_cons in Hin as [->|Hin]; [reflexivity|].
        specialize (Hx a Hin). specialize (Hb x ltac:(left)). lia. }
      rewrite (keep_ext (a :: u) u).
      2:{ intros i Hi. rewrite elem_of_cons. specialize (Hnot i Hi). tauto. }
      destruct (IH u (Z.succ a) Hs) as [Hlen Hlook].
      { intros i Hi. specialize (Hx i Hi).
        specialize (Hb i ltac:(right; exact Hi)). cbn [length] in Hb. lia. }
      split; [simpl; f_equal; exact Hlen|].
      intros [|j] i Hj; simpl in Hj.
      * injection Hj as <-. rewrite Z.sub_diag. reflexivity.
      * simpl. rewrite (Hlook j i Hj).
        assert (Hi : i ∈ u) by (apply list_elem_of_lookup; eauto).
        specialize (Hx i Hi).
        replace (Z.to_nat (i - a)) with (S (Z.to_nat (i - Z.succ a))) by lia.
        reflexivity.
    + rewrite bool_decide_eq_false_2 by assumption.
      destruct (IH u (Z.succ a) Hs) as [Hlen Hlook].
      { intros i Hi. specialize (Hb i Hi). cbn [length] in Hb.
        assert (i <> a) by (intros ->; contradiction). lia. }
      split; [exact Hlen|].
      intros j i Hj. rewrite (Hlook j i Hj).
      assert (Hi : i ∈ u) by (apply list_elem_of_lookup; eauto).
      specialize (Hb i Hi). assert (i <> a) by (intros ->; contradiction).
      replace (Z.to_nat (i - a)) with (S (Z.to_nat (i - Z.succ a))) by lia.
      reflexivity.
Qed.

Lemma pick_ok (res : list tensor) (u : list Z) (g : Z -> option tensor) inds :
  (forall i, i ∈ inds -> exists n, res !! index_of i u = Some n /\ g i = Some n) ->
  exists chunks,
    pick res (map (fun i => index_of i u) inds) = Ok chunks
    /\ length chunks = length inds
    /\ forall p i, inds !! p = Some i -> chunks !! p = g i.
Proof.
  induction inds as [|i inds IH]; intros Hres; simpl.
  - exists []. repeat split. intros p i Hp. inversion Hp.
  - destruct (Hres i ltac:(left)) as (n & Hn & Hg). rewrite Hn.
    destruct IH as (chunks & -> & Hlen & Hlook).
    { intros i' Hi'. apply Hres. right. exact Hi'. }
    exists (n :: chunks). split; [reflexivity|]. split; [simpl; congruence|].
    intros [|p] i' Hp; simpl in *.
    + injection Hp as <-. congruence.
    + auto.
Qed.

(** C4, as the code has it: when the multiplier is not zero, the target
    latent carries a non-empty list of non-negative batch indices and the
    reference batch is not empty, [generate_noise] draws, for every index
    from 0 up to the largest index present and in that order, one noise
    sample with the seed [seed + index] against the example
    [index % batch_size] of the reference. If a draw raises, so does
    [generate_noise]; otherwise it returns the concatenation of one chunk per
    position of the batch-index list, the chunk at a position being the
    sample drawn for the index at that position, so that two positions with
    the same index receive the same noise. *)
Theorem generate_noise_batch_index (self : t) (input_latent : latent)
    (inds : list Z) (bs : nat) (rest : list nat) (w : world) :
  (multiplier self =? 0)%float = false ->
  batch_index input_latent = Some inds ->
  inds <> [] ->
  Forall (fun i => 0 <= i) inds ->
  shape (samples input_latent) = bs :: rest ->
  bs <> 0%nat ->
  exists top,
    top ∈ inds
    /\ (forall i, i ∈ inds -> i <= top)
    /\ match for_each (sample_at self (samples input_latent) bs)
                (range (top + 1)) (reseeded self w) with
       | (Ok noises, w') =>
           exists chunks,
             generate_noise self input_latent w = (cat chunks, w')
             /\ length noises = Z.to_nat (top + 1)
             /\ drawn w'
                = drawn w
                  ++ map (fun idx =>
                            (example (samples input_latent)
                               (Z.to_nat (idx mod Z.of_nat bs)),
                             seed self + idx))
                       (range (top + 1))
             /\ length chunks = length inds
             /\ (forall p i, inds !! p = Some i ->
                             chunks !! p = noises !! Z.to_nat i)
             /\ (forall p q i, inds !! p = Some i -> inds !! q = Some i ->
                               chunks !! p = chunks !! q)
       | (Raise e, w') => generate_noise self input_latent w = (Raise e, w')
       end.
Proof.
  intros Hmul Hinds Hne Hpos Hshape Hbs.
  destruct (np_unique_spec inds) as (Hsorted & Hmem & Hinv).
  destruct (np_unique inds) as [u inverse] eqn:Hu. simpl in Hsorted, Hmem, Hinv.
  rewrite Forall_forall in Hpos.
  destruct (last u) as [top|] eqn:Hlast.
  2:{ apply last_None in Hlast. subst u. destruct inds as [|i0 inds]; [congruence|].
      exfalso. assert (Hi : i0 ∈ @nil Z) by (apply Hmem; left). inversion Hi. }
  destruct (sorted_last u top Hsorted Hlast) as [Htop Hmax].
  assert (Htop0 : 0 <= top) by (apply Hpos, Hmem, Htop).
  exists top. split; [apply Hmem, Htop|].
  split; [intros i Hi; apply Hmax, Hmem, Hi|].
  assert (Hgen :
    generate_noise self input_latent w
    = match for_each (sample_at self (samples input_latent) bs)
              (range (top + 1)) (reseeded self w) with
      | (Ok noises, w') =>
          match pick (keep u (range (top + 1)) noises) inverse with
          | Ok chunks => (cat chunks, w')
          | Raise e => (Raise e, w')
          end
      | (Raise e, w') => (Raise e, w')
      end).
  { unfold generate_noise. rewrite Hinds, Hu.
    unfold bind at 1. cbn [torch_manual_seed].
    unfold bind at 1. cbn [random_seed generators drawn torch_rng random_rng].
    rewrite Hmul. fold (reseeded self w).
    unfold shape0, last_of. rewrite Hshape, Hlast.
    unfold bind at 1. cbn [lift_result]. unfold bind at 1. cbn [lift_result].
    unfold bind at 1. rewrite loop_run by assumption.
    destruct (for_each _ _ _) as [[noises|e] w']; [|reflexivity].
    cbn [app]. unfold bind, lift_result.
    destruct (pick _ _); reflexivity. }
  rewrite Hgen.
  destruct (for_each (sample_at self (samples input_latent) bs)
              (range (top + 1)) (reseeded self w)) as [[noises|e] w'] eqn:Hrun;
    [|reflexivity].
  pose proof (for_each_length _ _ _ _ _ Hrun) as Hlen.
  unfold range in Hlen. rewrite length_seqZ in Hlen.
  pose proof (for_each_drawn _ _ _ _ _ _ _ Hrun) as Hdrawn.
  destruct (keep_lookup noises u 0 Hsorted) as [_ Hkeep].
  { intros i Hi. specialize (Hmax i Hi).
    assert (0 <= i) by (apply Hpos, Hmem, Hi). lia. }
  replace (Z.of_nat (length noises)) with (top + 1) in Hkeep by lia.
  fold (range (top + 1)) in Hkeep.
  destruct (pick_ok (keep u (range (top + 1)) noises) u
              (fun i => noises !! Z.to_nat i) inds) as (chunks & Hpick & Hclen & Hchunks).
  { intros i Hi. apply Hmem in Hi.
    pose proof (index_of_lookup i u Hi) as Hidx.
    specialize (Hkeep _ _ Hidx). rewrite Z.sub_0_r in Hkeep.
    specialize (Hmax i Hi). assert (0 <= i) by (apply Hpos, Hmem, Hi).
    destruct (lookup_lt_is_Some_2 noises (Z.to_nat i)) as [n Hn]; [lia|].
    exists n. rewrite Hkeep. auto. }
  rewrite Hinv, Hpick.
  exists chunks. split; [reflexivity|].
  split; [exact Hlen|]. split; [exact Hdrawn|]. split; [exact Hclen|].
  split; [exact Hchunks|].
  intros p q i Hp Hq. rewrite (Hchunks p i Hp), (Hchunks q i Hq). reflexivity.
Qed.

End BatchIndexFacts.

Lemma generate_noise_batch_index_witness :
  exists top,
    top ∈ [0; 0; 1]
    /\ (forall i, i ∈ [0; 0; 1] -> i <= top)
    /\ match for_each (sample_at (Runs.adapter 1) Runs.image 2)
                (range (top + 1)) (reseeded (Runs.adapter 1) Runs.fresh_world) with
       | (Ok noises, w') =>
           exists chunks,
             CustomNOISE.generate_noise (Runs.adapter 1) Runs.indexed_latent
               Runs.fresh_world = (cat chunks, w')
             /\ length noises = Z.to_nat (top + 1)
             /\ CustomNOISE.drawn w'
                = CustomNOISE.drawn Runs.fresh_world
                  ++ map (fun idx =>
                            (example Runs.image (Z.to_nat (idx mod Z.of_nat 2)),
                             42 + idx))
                       (range (top + 1))
             /\ length chunks = length [0; 0; 1]
             /\ (forall p i, [0; 0; 1] !! p = Some i ->
                             chunks !! p = noises !! Z.to_nat i)
             /\ (forall p q i, [0; 0; 1] !! p = Some i -> [0; 0; 1] !! q = Some i ->
                               chunks !! p = chunks !! q)
       | (Raise e, w') =>
           CustomNOISE.generate_noise (Runs.adapter 1) Runs.indexed_latent
             Runs.fresh_world = (Raise e, w')
       end.
Proof.
  apply (generate_noise_batch_index (H := Demo.env) (Runs.adapter 1)
           Runs.indexed_latent [0; 0; 1] 2%nat [1; 1; 2]%nat Runs.fresh_world).
  - reflexivity.
  - reflexivity.
  - discriminate.
  - repeat constructor; lia.
  - reflexivity.
  - discriminate.
Defined.

(** The run of the witness, evaluated: the samples for the indices 0 and 1
    are drawn with the seeds 42 and 43, and the positions 0 and 1 of the
    output, which share the index 0, hold the same values. *)
Lemma batch_index_run :
  CustomNOISE.generate_noise (Runs.adapter 1) Runs.indexed_latent Runs.fresh_world
  = (Ok {| shape := [3; 1; 1; 2]%nat; t_dtype := float32; t_layout := strided;
           t_device := cpu; data := [42; 42; 42; 42; 43; 43]%float |},
     Runs.world_of
       {| torch_rng := (42, 2%nat); device_rng := (42, 0%nat);
          random_rng := (42, 0%nat) |}
       [(example Runs.image 0, 42); (example Runs.image 1, 43)]).
Proof. vm_compute. reflexivity. Qed.

(** C4, counterexample to the claim as stated: the target latent carries the
    batch indices [0, 0, 1], the multiplier is zero, and [generate_noise]
    draws no sample at all; it returns zeros shaped like the latent, a batch
    of two for three batch positions. *)
Lemma zero_multiplier_ignores_batch_index :
  batch_index Runs.indexed_latent = Some [0; 0; 1]
  /\ CustomNOISE.generate_noise Runs.silent Runs.indexed_latent Runs.fresh_world
     = (Ok (zeros [2; 1; 1; 2]%nat float32 strided cpu),
        Runs.world_of (Runs.seeded 42) []).
Proof. split; reflexivity. Qed.

(** * Further properties of the code *)

(** ** The adapter to the host's noise interface *)

Section SampleNoiseFacts.
Context `{Env}.
Import CustomNOISE.

Lemma layout_eqb_eq a b : layout_eqb a b = true <-> a = b.
Proof. destruct a, b; simpl; split; intros; congruence. Qed.

(** X1: whenever [_sample_noise] returns a tensor, that tensor lives on the
    CPU and has the element type and the storage layout of the latent it was
    drawn for, whatever the sampler answered with. *)
Theorem sample_noise_matches_latent (self : t) (latent_image : tensor) (seed : Z)
    (w w' : world) (out : tensor) :
  _sample_noise self latent_image seed w = (Ok out, w') ->
  t_device out = cpu
  /\ t_dtype out = t_dtype latent_image
  /\ t_layout out = t_layout latent_image.
Proof.
  unfold _sample_noise, bind.
  destruct (draw self latent_image seed w) as [[sample|e] w1]; [|discriminate].
  destruct (layout_eqb (t_layout (to_cpu sample (t_dtype latent_image)))
              (t_layout latent_image)) eqn:Hsame; simpl.
  - apply layout_eqb_eq in Hsame. simpl in Hsame.
    destruct (multiplier self =? 1)%float; intros [= <- _]; simpl; auto.
  - destruct (layout_eqb (t_layout latent_image) sparse_coo) eqn:Hsparse;
      [|discriminate].
    apply layout_eqb_eq in Hsparse. intros [= <- _]. simpl. auto.
Qed.

(** X2: when the sampler answers with a tensor whose layout is not that of
    the latent, and the latent is not in the sparse COO layout,
    [_sample_noise] raises [NotImplementedError]; the message names the type
    of the layout, which is "layout" for every layout. The sample has been
    drawn by then. *)
Theorem sample_noise_unsupported_layout (self : t) (latent_image : tensor)
    (seed : Z) (w w' : world) (sample : tensor) :
  draw self latent_image seed w = (Ok sample, w') ->
  t_layout sample <> t_layout latent_image ->
  t_layout latent_image <> sparse_coo ->
  _sample_noise self latent_image seed w
  = (Raise (NotImplementedError "Cannot handle latent layout layout"), w').
Proof.
  intros Hdraw Hdiff Hsparse. unfold _sample_noise, bind. rewrite Hdraw.
  destruct (layout_eqb (t_layout (to_cpu sample (t_dtype latent_image)))
              (t_layout latent_image)) eqn:Hsame.
  { apply layout_eqb_eq in Hsame. simpl in Hsame. contradiction. }
  destruct (layout_eqb (t_layout latent_image) sparse_coo) eqn:Hs.
  { apply layout_eqb_eq in Hs. contradiction. }
  reflexivity.
Qed.

(** X3: when the sampler answers with a tensor that is not sparse and the
    latent is in the sparse COO layout, [_sample_noise] returns the sample
    moved to the CPU, cast to the element type of the latent and converted
    to sparse: its elements are those of the sample, each rounded to that
    element type. On this path the multiplier is not applied, whatever its
    value. *)
Theorem sample_noise_sparse_latent (self : t) (latent_image : tensor)
    (seed : Z) (w w' : world) (sample : tensor) :
  draw self latent_image seed w = (Ok sample, w') ->
  t_layout sample <> sparse_coo ->
  t_layout latent_image = sparse_coo ->
  _sample_noise self latent_image seed w
  = (Ok (to_sparse (to_cpu sample (t_dtype latent_image))), w')
  /\ data (to_sparse (to_cpu sample (t_dtype latent_image)))
     = map (cast (t_dtype latent_image)) (data sample).
Proof.
  intros Hdraw Hdiff Hsparse. unfold _sample_noise, bind. rewrite Hdraw.
  split; [|reflexivity].
  destruct (layout_eqb (t_layout (to_cpu sample (t_dtype latent_image)))
              (t_layout latent_image)) eqn:Hsame.
  { apply layout_eqb_eq in Hsame. simpl in Hsame. congruence. }
  rewrite Hsparse. reflexivity.
Qed.

(** X4: with a multiplier other than zero and a batch-index list that is
    present but empty, [generate_noise] raises [IndexError] once it has
    seeded the generators, and draws no sample. *)
Theorem generate_noise_empty_batch_index (self : t) (input_latent : latent)
    (w : world) :
  (multiplier self =? 0)%float = false ->
  batch_index input_latent = Some [] ->
  generate_noise self input_latent w = (Raise IndexError, reseeded self w).
Proof.
  intros Hmul Hinds. unfold generate_noise. rewrite Hinds.
  unfold bind at 1. cbn [torch_manual_seed].
  unfold bind at 1. cbn [random_seed generators drawn torch_rng random_rng].
  rewrite Hmul. fold (reseeded self w). cbn [np_unique foldr map].
  unfold bind, lift_result, shape0, last_of.
  destruct (shape (samples input_latent)); reflexivity.
Qed.

(** X5: what [generate_noise] returns, and the state it leaves, do not
    depend on the state of the generators when it is called: it seeds them
    before anything else. *)
Theorem generate_noise_ignores_incoming_generators (self : t)
    (input_latent : latent) (w1 w2 : world) :
  drawn w1 = drawn w2 ->
  generate_noise self input_latent w1 = generate_noise self input_latent w2.
Proof.
  destruct w1 as [g1 d1], w2 as [g2 d2]. simpl. intros ->.
  unfold generate_noise, bind. reflexivity.
Qed.

End SampleNoiseFacts.

(** ** The further properties of the adapter, at concrete inputs *)

Lemma sample_noise_matches_latent_witness :
  t_device Runs.sample_42 = cpu
  /\ t_dtype Runs.sample_42 = t_dtype Runs.image
  /\ t_layout Runs.sample_42 = t_layout Runs.image.
Proof.
  apply (sample_noise_matches_latent (H := Demo.env) (Runs.adapter 1) Runs.image
           42 Runs.fresh_world Runs.after_one_draw Runs.sample_42).
  vm_compute. reflexivity.
Defined.

Lemma sample_noise_unsupported_layout_witness :
  CustomNOISE._sample_noise (H := Demo.strided_env) Runs.strided_adapter
    Runs.csr_image 42 Runs.strided_world
  = (Raise (NotImplementedError "Cannot handle latent layout layout"),
     Runs.strided_after Runs.csr_image).
Proof.
  apply (sample_noise_unsupported_layout (H := Demo.strided_env)
           Runs.strided_adapter Runs.csr_image 42 Runs.strided_world
           (Runs.strided_after Runs.csr_image) Runs.strided_sample).
  - vm_compute. reflexivity.
  - discriminate.
  - discriminate.
Defined.

Lemma sample_noise_sparse_latent_witness :
  CustomNOISE._sample_noise (H := Demo.strided_env) Runs.strided_adapter
    Runs.sparse_image 42 Runs.strided_world
  = (Ok (to_sparse (to_cpu (H := Demo.strided_env) Runs.strided_sample
                      (t_dtype Runs.sparse_image))),
     Runs.strided_after Runs.sparse_image)
  /\ data (to_sparse (to_cpu (H := Demo.strided_env) Runs.strided_sample
                       (t_dtype Runs.sparse_image)))
     = map (cast (Env := Demo.strided_env) (t_dtype Runs.sparse_image))
         (data Runs.strided_sample).
Proof.
  apply (sample_noise_sparse_latent (H := Demo.strided_env)
           Runs.strided_adapter Runs.sparse_image 42 Runs.strided_world
           (Runs.strided_after Runs.sparse_image) Runs.strided_sample).
  - vm_compute. reflexivity.
  - discriminate.
  - reflexivity.
Defined.

Lemma generate_noise_empty_batch_index_witness :
  CustomNOISE.generate_noise (H := Demo.env) (Runs.adapter 1)
    Runs.empty_index_latent Runs.fresh_world
  = (Raise IndexError, reseeded (Runs.adapter 1) Runs.fresh_world).
Proof.
  apply (generate_noise_empty_batch_index (H := Demo.env) (Runs.adapter 1)
           Runs.empty_index_latent Runs.fresh_world); reflexivity.
Defined.

Lemma generate_noise_ignores_incoming_generators_witness :
  CustomNOISE.generate_noise (H := Demo.env) (Runs.adapter 1) Runs.indexed_latent
    Runs.fresh_world
  = CustomNOISE.generate_noise (H := Demo.env) (Runs.adapter 1) Runs.indexed_latent
      (Runs.world_of (Runs.seeded 1) []).
Proof.
  apply (generate_noise_ignores_incoming_generators (H := Demo.env)
           (Runs.adapter 1) Runs.indexed_latent Runs.fresh_world
           (Runs.world_of (Runs.seeded 1) [])).
  reflexivity.
Defined.

(** ** NoisyLatentLike, further *)

Section NoisyLatentLikeMore.
Context `{Env}.
Import NoisyLatentLikeNode.

(** With a custom noise chain connected, the port [noise_type] has no
    effect on [go]: not on what it returns, not on the state it leaves, and
    a name that is no member of [NoiseType] raises nothing. *)
Theorem go_custom_noise_ignores_noise_type noise_type noise_type' seed lat
    multiplier add_to_latent repeat_batch custom mul_by_sigmas_opt model_opt
    (p : process rng_state) :
  go noise_type seed lat multiplier add_to_latent repeat_batch (Some custom)
     mul_by_sigmas_opt model_opt p
  = go noise_type' seed lat multiplier add_to_latent repeat_batch (Some custom)
       mul_by_sigmas_opt model_opt p.
Proof. reflexivity. Qed.

Lemma unwrap_wrappers n model :
  unwrap (Nat.iter n ModelWrapper model) = unwrap model.
Proof. induction n; simpl; auto. Qed.

(** X6: [go] looks through wrappers: a model wrapped in any number of layers
    that expose it as their attribute [model] gives what the model itself
    gives. *)
Theorem go_looks_through_wrappers n noise_type seed lat multiplier add_to_latent
    repeat_batch custom_noise_opt mul_by_sigmas_opt model
    (p : process rng_state) :
  go noise_type seed lat multiplier add_to_latent repeat_batch custom_noise_opt
     mul_by_sigmas_opt (Some (Nat.iter n ModelWrapper model)) p
  = go noise_type seed lat multiplier add_to_latent repeat_batch custom_noise_opt
       mul_by_sigmas_opt (Some model) p.
Proof. unfold go, scaled_multiplier. rewrite unwrap_wrappers. reflexivity. Qed.

(** X7: with a [repeat_batch] of zero or less, [go] never returns a latent.
    When its first checks pass, the sampler gets built and the seed is an
    integer, the call ends in the error of [torch.cat] for an empty
    sequence and the sampler has not been called: the general-purpose
    generator is as the construction of the sampler left it, the default
    generator is put back to the state saved, and the generators of the
    accelerators stay seeded. *)
Theorem go_nonpositive_repeat_batch noise_type seed lat multiplier add_to_latent
    repeat_batch custom_noise_opt mul_by_sigmas_opt model_opt
    (p : process rng_state) :
  repeat_batch <= 0 ->
  is_ok (fst (go noise_type seed lat multiplier add_to_latent repeat_batch
                custom_noise_opt mul_by_sigmas_opt model_opt p)) = false
  /\ forall s m ns p1,
       seed = Some s ->
       scaled_multiplier multiplier mul_by_sigmas_opt model_opt = Ok m ->
       build_noise_sampler noise_type seed (samples lat) custom_noise_opt
         mul_by_sigmas_opt p = (Ok ns, p1) ->
       go noise_type seed lat multiplier add_to_latent repeat_batch
          custom_noise_opt mul_by_sigmas_opt model_opt p
       = (Raise (RuntimeError "torch.cat(): expected a non-empty list of Tensors"),
          {| torch_rng := torch_rng p1; device_rng := device_seeded s;
             random_rng := random_rng p1 |}).
Proof.
  intros Hrb.
  assert (Hsampling : forall ns m p1,
    sampling seed lat add_to_latent repeat_batch mul_by_sigmas_opt ns m p1
    = match seed with
      | Some s =>
          (Raise (RuntimeError "torch.cat(): expected a non-empty list of Tensors"),
           {| torch_rng := torch_rng p1; device_rng := device_seeded s;
              random_rng := random_rng p1 |})
      | None =>
          (Raise (TypeError "manual_seed(): argument 'seed' must be int, not NoneType"),
           {| torch_rng := torch_rng p1; device_rng := device_rng p1;
              random_rng := random_rng p1 |})
      end).
  { intros ns m p1. unfold sampling, range. rewrite seqZ_nil by assumption.
    destruct (sigma_bounds mul_by_sigmas_opt) as [[[lo hi] sigma] sigma_next].
    destruct seed; reflexivity. }
  rewrite go_steps. split.
  - destruct (scaled_multiplier multiplier mul_by_sigmas_opt model_opt) as [m|e];
      [|reflexivity].
    destruct (build_noise_sampler _ _ _ _ _ p) as [[ns|e] p1]; [|reflexivity].
    rewrite Hsampling. destruct seed; reflexivity.
  - intros s m ns p1 -> Hm Hb. rewrite Hm, Hb. apply Hsampling.
Qed.

(** X8: a sigmas tensor with a single entry acts on [go] as a multiplier
    and nothing else: with a model whose latent scale factor is not zero,
    [go] does what it does without sigmas and with the multiplier scaled by
    the first sigma (or, at maximum denoise, by what torch makes of the
    square root of one plus its square in the element type of the sigmas)
    over the scale factor; the sampler is built without sigma bounds. *)
Theorem go_single_sigma noise_type seed lat multiplier add_to_latent
    repeat_batch custom_noise_opt sigma model (p : process rng_state) :
  (latent_scale_factor (unwrap model) =? 0)%float = false ->
  go noise_type seed lat multiplier add_to_latent repeat_batch custom_noise_opt
     (Some [sigma]) (Some model) p
  = go noise_type seed lat
       (multiplier
        * ((if max_denoise (unwrap model) [sigma]
            then sqrt_one_plus_square sigma else sigma)
           / latent_scale_factor (unwrap model)))%float
       add_to_latent repeat_batch custom_noise_opt None None p.
Proof.
  intros Hscale. rewrite !go_steps. unfold scaled_multiplier.
  cbn [longer_than length Nat.ltb Nat.leb default item nth].
  unfold py_div. rewrite Hscale. reflexivity.
Qed.

Lemma build_blind noise_type seed x custom_noise_opt sigmas :
  constructors_blind ->
  blind_to_torch (build_noise_sampler noise_type seed x custom_noise_opt sigmas).
Proof.
  intros [Hmake Hget]. unfold build_noise_sampler.
  destruct (sigma_bounds sigmas) as [[[lo hi] sigma] sigma_next].
  destruct custom_noise_opt as [custom|]; [apply Hmake|].
  destruct (NoiseType_getitem noise_type) as [member|]; [apply Hget|].
  intros p1 p2 Hr. split; [reflexivity | exact Hr].
Qed.

Lemma sampling_blind seed lat add_to_latent repeat_batch sigmas ns m
    (p1 p2 : process rng_state) :
  random_rng p1 = random_rng p2 ->
  fst (sampling seed lat add_to_latent repeat_batch sigmas ns m p1)
  = fst (sampling seed lat add_to_latent repeat_batch sigmas ns m p2).
Proof.
  destruct p1 as [t1 d1 r1], p2 as [t2 d2 r2]. simpl. intros ->.
  unfold sampling.
  destruct (sigma_bounds sigmas) as [[[lo hi] sigma] sigma_next].
  unfold bind, try_finally, get_rng_state, set_rng_state, manual_seed,
    lift_result, ret, raise.
  destruct seed as [s|]; [|reflexivity]. cbn [random_rng torch_rng device_rng].
  destruct (for_each (fun _ => ns sigma sigma_next) (range repeat_batch)
              {| torch_rng := torch_seeded s; device_rng := device_seeded s;
                 random_rng := r2 |})
    as [[noises|e] p']; [|reflexivity].
  destruct (cat noises) as [result|e]; [|reflexivity].
  destruct add_to_latent; [|reflexivity].
  destruct (add_repeated _ _ _); reflexivity.
Qed.

(** X9: what [go] returns does not depend on the state of the tensor
    generators when it is called, but only, as far as the generators go, on
    the state of the general-purpose one, which [go] does not seed: the
    constructors of noise samplers being taken not to look at the tensor
    generators, [go] seeds these before the first sample is drawn. *)
Theorem go_ignores_incoming_torch_rng noise_type seed lat multiplier
    add_to_latent repeat_batch custom_noise_opt mul_by_sigmas_opt model_opt
    (p1 p2 : process rng_state) :
  constructors_blind ->
  random_rng p1 = random_rng p2 ->
  fst (go noise_type seed lat multiplier add_to_latent repeat_batch
         custom_noise_opt mul_by_sigmas_opt model_opt p1)
  = fst (go noise_type seed lat multiplier add_to_latent repeat_batch
           custom_noise_opt mul_by_sigmas_opt model_opt p2).
Proof.
  intros Hblind Hr. rewrite !go_steps.
  destruct (scaled_multiplier multiplier mul_by_sigmas_opt model_opt) as [m|e];
    [|reflexivity].
  destruct (build_blind noise_type seed (samples lat) custom_noise_opt
              mul_by_sigmas_opt Hblind p1 p2 Hr) as [Hfst Hrand].
  destruct (build_noise_sampler _ _ _ _ _ p1) as [[ns1|e1] q1],
           (build_noise_sampler _ _ _ _ _ p2) as [[ns2|e2] q2];
    simpl in Hfst, Hrand; try discriminate.
  - injection Hfst as <-. apply sampling_blind, Hrand.
  - simpl. congruence.
Qed.

End NoisyLatentLikeMore.

(** ** SamplerConfigOverride, further *)

Section OverrideMore.
Context `{Env}.
Import SamplerNodeConfigOverride.




(** X11: [sampler_function] raises its [ValueError] for a missing
    configuration exactly when the keyword [override_sampler_cfg] is absent
    or its value is false in a test, as [None] and the empty dictionary are;
    no later step of the function raises this error. *)
Theorem sampler_function_config_missing model x sigmas args
    (passed : gmap string pyval) :
  sampler_function model x sigmas args passed
  = Raise (ValueError "Override sampler config missing!")
  <-> falsy (dict_get passed "override_sampler_cfg") = true.
Proof.
  unfold sampler_function.
  destruct (falsy (dict_get passed "override_sampler_cfg")) eqn:Hfalsy.
  - split; reflexivity.
  - split; [|discriminate]. intros Hraise. exfalso.
    unfold tensor_min, tensor_max in Hraise.
    repeat case_match; simplify_eq.
Qed.

(** X12: the sampler that [get_sampler] returns keeps the inpaint options of
    the wrapped sampler and all of its extra options but the one named
    [override_sampler_cfg], which holds the new configuration whether or not
    the wrapped sampler had one. *)
Theorem get_sampler_keeps_options wrapped params weo wio eta s_noise s_churn r
    sde_solver cpu_noise noise_type custom_noise_opt normalize fn ps eo io :
  get_sampler (PSampler wrapped params weo wio) eta s_noise s_churn r sde_solver
    cpu_noise noise_type custom_noise_opt normalize
  = Ok (PSampler fn ps eo io) ->
  io = wio
  /\ (forall k, k <> "override_sampler_cfg" -> eo !! k = weo !! k)
  /\ exists cfg,
       eo !! "override_sampler_cfg" = Some (PDict cfg)
       /\ cfg !! "sampler" = Some (PSampler wrapped params weo wio).
Proof.
  unfold get_sampler.
  destruct (noise_type_member noise_type) as [member|e]; [|discriminate].
  intros [= <- <- <- <-]. unfold dict_or. split; [apply (left_id ∅ (∪))|].
  split.
  - intros k Hk. rewrite lookup_union_r; [reflexivity|].
    apply lookup_singleton_ne. congruence.
  - eexists. split.
    + erewrite lookup_union_Some_l; [reflexivity|]. apply lookup_singleton_eq.
    + apply cfg_lookups.
Qed.


End OverrideMore.

(** ** The noise-composition nodes, further *)

Section NodeMore.
Context `{Env}.
Import Noise SonarNormalizeNoiseNodeMixin.

(** X14: invoked with a factor other than zero and no rescaling, [go]
    returns a new chain that holds the items of the connected chain, in
    their order, followed by one new item with that factor and the keyword
    arguments of the node. *)
Theorem go_appends_item factor rescale sonar_custom_noise_opt kw (h : store) items :
  (factor =? 0)%float = false ->
  (rescale =? 0)%float = true ->
  connected_items sonar_custom_noise_opt h = Some items ->
  SonarCustomNoiseNodeBase.go factor rescale sonar_custom_noise_opt kw h
  = (Ok (length h),
     h ++ [items ++ [{| Noise.factor := factor; Noise.kwargs := kw |}]]).
Proof.
  intros Hf Hr Hc. rewrite (go_run factor rescale _ kw h items Hc).
  rewrite Hf, Hr. reflexivity.
Qed.

(** X15: nodes chained through the chain input build the chain in the order
    of the connections, and the chain that the first node returned, which
    could feed other nodes as well, still holds what it held: its own items
    and not the item of the second node. *)
Theorem chained_nodes_compose factor1 factor2 noise_type1 noise_type2
    sonar_custom_noise_opt (h : store) items :
  (factor1 =? 0)%float = false ->
  (factor2 =? 0)%float = false ->
  connected_items sonar_custom_noise_opt h = Some items ->
  let item1 := {| Noise.factor := factor1; Noise.kwargs := CustomNoiseItem noise_type1 |} in
  let item2 := {| Noise.factor := factor2; Noise.kwargs := CustomNoiseItem noise_type2 |} in
  (first <- SonarCustomNoiseNode.go factor1 0%float noise_type1 sonar_custom_noise_opt ;;
   second <- SonarCustomNoiseNode.go factor2 0%float noise_type2 (Some first) ;;
   ret (first, second))%py h
  = (Ok (length h, S (length h)),
     h ++ [items ++ [item1]; items ++ [item1; item2]]).
Proof.
  intros Hf1 Hf2 Hc item1 item2. subst item1 item2.
  unfold SonarCustomNoiseNode.go, bind.
  rewrite (go_run factor1 0%float _ (CustomNoiseItem noise_type1) h items Hc).
  rewrite Hf1. change (0 =? 0)%float with true. cbv beta iota. cbn [negb].
  erewrite go_run by (simpl; apply lookup_fresh).
  rewrite Hf2. change (0 =? 0)%float with true. cbv beta iota. cbn [negb].
  unfold ret. rewrite length_app. simpl.
  rewrite <- !app_assoc. simpl.
  replace (length h + 1)%nat with (S (length h)) by lia. reflexivity.
Qed.

(** X17: the port [normalize_ref] of SonarModulatedNoise has no effect:
    [get_normalize] compares its argument with the strings "default" and
    "forced", and a Boolean equals neither, so that the item is built with
    [normalize_ref = False] for either value of the port. The item refers to
    the connected chain itself. *)
Theorem modulated_normalize_ref_ignored factor sonar_custom_noise modulation_type
    dims strength normalize_result normalize_noise (normalize_ref : bool)
    ref_latent_opt (h : store) :
  (factor =? 0)%float = false ->
  SonarModulatedNoiseNode.go factor sonar_custom_noise modulation_type dims
    strength normalize_result normalize_noise normalize_ref ref_latent_opt h
  = (Ok (length h),
     h ++ [[{| Noise.factor := factor;
               Noise.kwargs :=
                 ModulatedNoise sonar_custom_noise modulation_type dims strength
                   (get_normalize (PStr normalize_result))
                   (get_normalize (PStr normalize_noise))
                   (Some false)
                   (option_map samples ref_latent_opt) |}]]).
Proof.
  intros Hf. unfold SonarModulatedNoiseNode.go.
  rewrite (go_run factor 0%float None _ h []) by reflexivity.
  rewrite Hf. destruct normalize_ref; reflexivity.
Qed.

Lemma get_normalize_tri_state v :
  get_normalize (SonarBlendFilterNoiseNode.tri_state v) = Some false.
Proof.
  unfold SonarBlendFilterNoiseNode.tri_state.
  destruct (String.eqb v "default"); [reflexivity|].
  destruct (String.eqb v "forced"); reflexivity.
Qed.

(** X18: the ports [normalize_result] and [normalize_noise] of
    SonarBlendFilterNoise have no effect: [go] first turns each into [None],
    [True] or [False] and then applies [get_normalize] to that, which yields
    [False] for all three. Two calls that differ in these ports only do the
    same. *)
Theorem blend_filter_normalize_ignored factor sonar_custom_noise blend_mode
    ffilter_name ffilter_custom ffilter_scale ffilter_strength ffilter_threshold
    enhance_mode enhance_strength affect
    normalize_result normalize_noise normalize_result' normalize_noise'
    (h : store) :
  SonarBlendFilterNoiseNode.go factor sonar_custom_noise blend_mode ffilter_name
    ffilter_custom ffilter_scale ffilter_strength ffilter_threshold enhance_mode
    enhance_strength affect normalize_result normalize_noise h
  = SonarBlendFilterNoiseNode.go factor sonar_custom_noise blend_mode ffilter_name
      ffilter_custom ffilter_scale ffilter_strength ffilter_threshold enhance_mode
      enhance_strength affect normalize_result' normalize_noise' h.
Proof.
  unfold SonarBlendFilterNoiseNode.go. rewrite !get_normalize_tri_state.
  reflexivity.
Qed.

(** [get_normalize] on the three values of a normalize port and on any
    other string: absent exactly for "default", true exactly for "forced",
    and false for every other string, "disabled" among them. *)
Theorem get_normalize_of_string (val : string) :
  (get_normalize (PStr val) = None <-> val = "default")
  /\ (get_normalize (PStr val) = Some true <-> val = "forced")
  /\ (get_normalize (PStr val) = Some false <-> val <> "default" /\ val <> "forced").
Proof.
  unfold get_normalize, eq_str.
  destruct (String.eqb_spec val "default") as [->|Hd].
  - repeat split; try discriminate; try (intros; congruence).
    intros [Hc _]. congruence.
  - destruct (String.eqb_spec val "forced") as [->|Hf].
    + repeat split; try discriminate; try (intros; congruence).
      intros [_ Hc]. congruence.
    + repeat split; try discriminate; try (intros; congruence); auto.
Qed.

(** X19: when the filter of SonarBlendFilterNoise cannot be had, because the
    custom text is not empty once stripped and does not evaluate, or because
    it is empty and the preset name is not in the table, [go] raises the
    error before it clones or creates any chain: the store is untouched. *)
Theorem blend_filter_error_leaves_store factor sonar_custom_noise blend_mode
    ffilter_name ffilter_custom ffilter_scale ffilter_strength ffilter_threshold
    enhance_mode enhance_strength affect normalize_result normalize_noise
    (h : store) (e : exn) :
  (strip ffilter_custom <> "" /\ literal_eval_list (strip ffilter_custom) = Raise e)
  \/ (strip ffilter_custom = "" /\ FILTER_PRESETS ffilter_name = None
      /\ e = KeyError ffilter_name) ->
  SonarBlendFilterNoiseNode.go factor sonar_custom_noise blend_mode ffilter_name
    ffilter_custom ffilter_scale ffilter_strength ffilter_threshold enhance_mode
    enhance_strength affect normalize_result normalize_noise h
  = (Raise e, h).
Proof.
  intros Hcase. unfold SonarBlendFilterNoiseNode.go. unfold bind at 1.
  unfold lift_result.
  destruct Hcase as [[Hne Hparse]|(Hempty & Hpreset & ->)].
  - apply String.eqb_neq in Hne. rewrite Hne, Hparse. reflexivity.
  - rewrite Hempty, Hpreset. reflexivity.
Qed.

(** X20: a custom filter text that is not empty once stripped overrides the
    preset: the preset name is not looked up, and may even be missing from
    the table. *)
Theorem blend_filter_custom_overrides_preset factor sonar_custom_noise blend_mode
    ffilter_name ffilter_name' ffilter_custom ffilter_scale ffilter_strength
    ffilter_threshold enhance_mode enhance_strength affect normalize_result
    normalize_noise (h : store) :
  strip ffilter_custom <> "" ->
  SonarBlendFilterNoiseNode.go factor sonar_custom_noise blend_mode ffilter_name
    ffilter_custom ffilter_scale ffilter_strength ffilter_threshold enhance_mode
    enhance_strength affect normalize_result normalize_noise h
  = SonarBlendFilterNoiseNode.go factor sonar_custom_noise blend_mode ffilter_name'
      ffilter_custom ffilter_scale ffilter_strength ffilter_threshold enhance_mode
      enhance_strength affect normalize_result normalize_noise h.
Proof.
  intros Hne. apply String.eqb_neq in Hne.
  unfold SonarBlendFilterNoiseNode.go. rewrite Hne. reflexivity.
Qed.

(** X21: SonarGuidedNoise wraps a clone: with a factor other than zero and
    the chain at [sonar_custom_noise] present, [go] first makes a copy of
    that chain at a new address, and the item of the chain it returns refers
    to the copy, not to the connected chain. *)
Theorem guided_wraps_clone factor lat sonar_custom_noise normalize_noise
    normalize_result normalize_ref method guidance_factor (h : store) items :
  (factor =? 0)%float = false ->
  h !! sonar_custom_noise = Some items ->
  SonarGuidedNoiseNode.go factor lat sonar_custom_noise normalize_noise
    normalize_result normalize_ref method guidance_factor h
  = (Ok (S (length h)),
     h ++ [items;
           [{| Noise.factor := factor;
               Noise.kwargs :=
                 GuidedNoise
                   (scale_noise (prepare_ref_latent (samples lat)) None normalize_ref)
                   guidance_factor (length h) method
                   (get_normalize (PStr normalize_noise))
                   (get_normalize (PStr normalize_result)) |}]])
  /\ length h <> sonar_custom_noise.
Proof.
  intros Hf Hl. pose proof (lookup_lt_Some _ _ _ Hl) as Hlt.
  split; [|lia].
  unfold SonarGuidedNoiseNode.go. unfold bind at 1.
  rewrite (clone_run _ _ _ Hl).
  rewrite (go_run factor 0%float None _ (h ++ [items]) []) by reflexivity.
  rewrite Hf. change (0 =? 0)%float with true. cbn [negb app].
  rewrite length_app, <- app_assoc. simpl.
  replace (length h + 1)%nat with (S (length h)) by lia. reflexivity.
Qed.

End NodeMore.

(** ** The further properties of the nodes, at concrete inputs *)

Lemma go_nonpositive_repeat_batch_witness :
  is_ok (fst (NoisyLatentLikeNode.go (H := Demo.env) "gaussian" (Some 1)
                Runs.plain_latent 1%float false 0 None None None Runs.rest_state))
  = false
  /\ NoisyLatentLikeNode.go (H := Demo.env) "gaussian" (Some 1)
       Runs.plain_latent 1%float false 0 None None None Runs.rest_state
     = (Raise (RuntimeError "torch.cat(): expected a non-empty list of Tensors"),
        {| torch_rng := (7, 3%nat); device_rng := (1, 0%nat);
           random_rng := (7, 5%nat) |}).
Proof.
  destruct (go_nonpositive_repeat_batch (H := Demo.env) "gaussian" (Some 1)
              Runs.plain_latent 1%float false 0 None None None Runs.rest_state
              ltac:(lia)) as [Hfails Hrun].
  split; [exact Hfails|].
  apply (Hrun 1 1%float (Demo.sampler (samples Runs.plain_latent) (Some 1))
           Runs.rest_state); reflexivity.
Defined.

Lemma go_single_sigma_witness :
  NoisyLatentLikeNode.go (H := Demo.strided_env) "gaussian" (Some 1)
    Runs.plain_latent 2%float false 1 None (Some [14.5%float])
    (Some Runs.half_scale_model) Runs.rest_state
  = NoisyLatentLikeNode.go (H := Demo.strided_env) "gaussian" (Some 1)
      Runs.plain_latent
      (2 * ((if max_denoise (Env := Demo.strided_env)
                  (NoisyLatentLikeNode.unwrap Runs.half_scale_model) [14.5%float]
             then sqrt_one_plus_square (Env := Demo.strided_env) 14.5
             else 14.5)
            / NoisyLatentLikeNode.latent_scale_factor
                (NoisyLatentLikeNode.unwrap Runs.half_scale_model)))%float
      false 1 None None None Runs.rest_state.
Proof.
  apply (go_single_sigma (H := Demo.strided_env)). reflexivity.
Defined.

Lemma go_ignores_incoming_torch_rng_witness :
  fst (NoisyLatentLikeNode.go (H := Demo.env) "gaussian" (Some 1)
         Runs.plain_latent 1%float false 2 None None None Runs.rest_state)
  = fst (NoisyLatentLikeNode.go (H := Demo.env) "gaussian" (Some 1)
           Runs.plain_latent 1%float false 2 None None None
           Runs.other_torch_state).
Proof.
  apply (go_ignores_incoming_torch_rng (H := Demo.env));
    [split; intros; intros p1 p2 Hr; split; (reflexivity || exact Hr)
    | reflexivity].
Defined.


Lemma get_sampler_keeps_options_witness :
  SamplerNodeConfigOverride.dict_or ∅ ∅ = (∅ : gmap string pyval)
  /\ (forall k, k <> "override_sampler_cfg" ->
       Runs.overriding_options !! k
       = (<["eta" := PFloat 1]> (<["s_noise" := PFloat 1]> ∅)
            : gmap string pyval) !! k)
  /\ exists cfg,
       Runs.overriding_options !! "override_sampler_cfg" = Some (PDict cfg)
       /\ cfg !! "sampler" = Some Runs.euler_ancestral.
Proof.
  apply (get_sampler_keeps_options (H := Demo.env)
           "sample_euler_ancestral"
           ["model"; "x"; "sigmas"; "extra_args"; "callback"; "disable"; "eta";
            "s_noise"; "noise_sampler"]
           (<["eta" := PFloat 1]> (<["s_noise" := PFloat 1]> ∅)) ∅
           0.5 1.25 0 0.25 "midpoint" true (Some "gaussian") None true
           SamplerNodeConfigOverride.own_function
           SamplerNodeConfigOverride.own_params
           Runs.overriding_options
           (SamplerNodeConfigOverride.dict_or ∅ ∅)).
  reflexivity.
Defined.


Lemma go_appends_item_witness :
  SonarCustomNoiseNodeBase.go (H := Demo.env) 0.5%float 0%float (Some 0%nat)
    (Noise.CustomNoiseItem "brownian") Runs.two_chains
  = (Ok (length Runs.two_chains),
     Runs.two_chains
     ++ [[Runs.gaussian 1; Runs.gaussian 1]
         ++ [{| Noise.factor := 0.5%float;
                Noise.kwargs := Noise.CustomNoiseItem "brownian" |}]]).
Proof.
  apply (go_appends_item (H := Demo.env) 0.5%float 0%float (Some 0%nat)
           (Noise.CustomNoiseItem "brownian") Runs.two_chains
           [Runs.gaussian 1; Runs.gaussian 1]); reflexivity.
Defined.

Lemma chained_nodes_compose_witness :
  let item1 := {| Noise.factor := 0.5%float;
                  Noise.kwargs := Noise.CustomNoiseItem (H := Demo.env) "brownian" |} in
  let item2 := {| Noise.factor := 2%float;
                  Noise.kwargs := Noise.CustomNoiseItem (H := Demo.env) "gaussian" |} in
  (first <- SonarCustomNoiseNode.go (H := Demo.env) 0.5%float 0%float "brownian" None ;;
   second <- SonarCustomNoiseNode.go (H := Demo.env) 2%float 0%float "gaussian"
               (Some first) ;;
   ret (first, second))%py Runs.two_chains
  = (Ok (length Runs.two_chains, S (length Runs.two_chains)),
     Runs.two_chains ++ [[] ++ [item1]; [] ++ [item1; item2]]).
Proof.
  apply (chained_nodes_compose (H := Demo.env) 0.5%float 2%float "brownian"
           "gaussian" None Runs.two_chains []); reflexivity.
Defined.

Lemma modulated_normalize_ref_ignored_witness :
  SonarModulatedNoiseNode.go (H := Demo.env) 1%float 0%nat "intensity" 3 2%float
    "default" "forced" true None Runs.two_chains
  = (Ok (length Runs.two_chains),
     Runs.two_chains
     ++ [[{| Noise.factor := 1%float;
             Noise.kwargs :=
               Noise.ModulatedNoise 0%nat "intensity" 3 2%float
                 (SonarNormalizeNoiseNodeMixin.get_normalize (PStr "default"))
                 (SonarNormalizeNoiseNodeMixin.get_normalize (PStr "forced"))
                 (Some false) (option_map samples None) |}]]).
Proof.
  apply (modulated_normalize_ref_ignored (H := Demo.env)). reflexivity.
Defined.

Lemma blend_filter_error_leaves_store_witness :
  SonarBlendFilterNoiseNode.go (H := Demo.strided_env) 1%float 0%nat "lerp"
    "none" "1, 2, oops" 1%float 0%float 1 "none" 0%float "result" "default"
    "default" Runs.one_chain
  = (Raise (SyntaxError "1, 2, oops"), Runs.one_chain).
Proof.
  apply (blend_filter_error_leaves_store (H := Demo.strided_env)).
  left. split; [discriminate | reflexivity].
Defined.

Lemma blend_filter_custom_overrides_preset_witness :
  SonarBlendFilterNoiseNode.go (H := Demo.strided_env) 1%float 0%nat "lerp"
    "none" "1, 2" 1%float 0%float 1 "none" 0%float "result" "default"
    "default" Runs.one_chain
  = SonarBlendFilterNoiseNode.go (H := Demo.strided_env) 1%float 0%nat "lerp"
      "no such preset" "1, 2" 1%float 0%float 1 "none" 0%float "result" "default"
      "default" Runs.one_chain.
Proof.
  apply (blend_filter_custom_overrides_preset (H := Demo.strided_env)).
  discriminate.
Defined.

Lemma guided_wraps_clone_witness :
  SonarGuidedNoiseNode.go (H := Demo.env) 1%float Runs.plain_latent 0%nat
    "default" "default" true "euler" 0.125%float Runs.two_chains
  = (Ok (S (length Runs.two_chains)),
     Runs.two_chains
     ++ [[Runs.gaussian 1; Runs.gaussian 1];
         [{| Noise.factor := 1%float;
             Noise.kwargs :=
               Noise.GuidedNoise
                 (scale_noise (Env := Demo.env)
                    (prepare_ref_latent (Env := Demo.env)
                       (samples Runs.plain_latent)) None true)
                 0.125%float (length Runs.two_chains) "euler"
                 (SonarNormalizeNoiseNodeMixin.get_normalize (PStr "default"))
                 (SonarNormalizeNoiseNodeMixin.get_normalize (PStr "default")) |}]])
  /\ length Runs.two_chains <> 0%nat.
Proof.
  apply (guided_wraps_clone (H := Demo.env) 1%float Runs.plain_latent 0%nat
           "default" "default" true "euler" 0.125%float Runs.two_chains
           [Runs.gaussian 1; Runs.gaussian 1]); reflexivity.
Defined.

(** ** Batch indices below zero *)

Section NegativeIndex.
Context `{Env}.
Import CustomNOISE.

Lemma loop_length self x bs u items : forall acc w res w',
  for_loop (sample_index self x bs u) items acc w = (Ok res, w') ->
  length res = (length acc + length (filter (fun i => i ∈ u) items))%nat.
Proof.
  induction items as [|a items IH]; intros acc w res w'.
  - simpl. intros [= <- _]. simpl. lia.
  - rewrite for_loop_cons. unfold sample_index at 1, bind, lift_result.
    destruct (py_mod a bs) as [i|e]; [|discriminate].
    destruct (_sample_noise self (example x i) (seed self + a) w) as [[n|e] w1];
      [|discriminate].
    intros Hrest. apply IH in Hrest. rewrite Hrest.
    rewrite filter_cons. simpl.
    destruct (decide (a ∈ u)) as [Hin|Hout].
    + rewrite bool_decide_eq_true_2 by assumption. rewrite length_app. simpl. lia.
    + rewrite bool_decide_eq_false_2 by assumption. lia.
Qed.

Lemma index_of_app_notin i (l k : list Z) :
  i ∉ l -> index_of i (l ++ k) = (length l + index_of i k)%nat.
Proof.
  induction l as [|y l IH]; intros Hnot; [reflexivity|]. simpl.
  apply not_elem_of_cons in Hnot as [Hne Hnot].
  destruct (Z.eqb_spec i y); [contradiction|]. rewrite IH by assumption.
  reflexivity.
Qed.

Lemma index_of_last (u : list Z) top :
  StronglySorted Z.lt u -> last u = Some top ->
  index_of top u = pred (length u).
Proof.
  intros Hs Hl. apply last_Some in Hl as [l' ->].
  apply StronglySorted_app in Hs as (Hlt & _ & _).
  rewrite index_of_app_notin.
  - simpl. rewrite Z.eqb_refl, length_app. simpl. lia.
  - intros Hin. specialize (Hlt top top Hin ltac:(left)). lia.
Qed.

Lemma pick_out_of_range (res : list tensor) inverse j :
  j ∈ inverse -> res !! j = None -> is_ok (pick res inverse) = false.
Proof.
  induction inverse as [|i inverse IH]; intros Hin Hnone; [inversion Hin|].
  simpl. destruct (res !! i) as [t|] eqn:Hi; [|reflexivity].
  apply elem_of_cons in Hin as [->|Hin]; [congruence|].
  specialize (IH Hin Hnone). destruct (pick res inverse); [discriminate|reflexivity].
Qed.

(** X22: with a multiplier other than zero and a batch-index list that
    holds a negative index, [generate_noise] never returns a tensor: the
    loop runs over the indices from zero only, so that fewer samples are
    kept than there are distinct indices and the reassembly of the batch
    reaches past the end of the kept samples ([IndexError]), unless an
    earlier step has raised. *)
Theorem generate_noise_negative_index (self : t) (input_latent : latent)
    (inds : list Z) (w : world) :
  (multiplier self =? 0)%float = false ->
  batch_index input_latent = Some inds ->
  (exists i, i ∈ inds /\ i < 0) ->
  is_ok (fst (generate_noise self input_latent w)) = false.
Proof.
  intros Hmul Hinds (neg & Hneg & Hlt).
  destruct (np_unique_spec inds) as (Hsorted & Hmem & Hinv).
  unfold generate_noise. rewrite Hinds.
  destruct (np_unique inds) as [u inverse] eqn:Hu. simpl in Hsorted, Hmem, Hinv.
  unfold bind at 1. cbn [torch_manual_seed].
  unfold bind at 1. cbn [random_seed generators drawn torch_rng random_rng].
  rewrite Hmul. fold (reseeded self w).
  unfold bind at 1. unfold lift_result at 1.
  destruct (shape0 (samples input_latent)) as [bs|e]; [|reflexivity].
  unfold bind at 1. unfold lift_result at 1. unfold last_of.
  destruct (last u) as [top|] eqn:Hlast; [|reflexivity].
  unfold bind at 1.
  destruct (for_loop _ _ _ _) as [[res|e] w'] eqn:Hloop; [|reflexivity].
  apply loop_length in Hloop. simpl in Hloop.
  unfold bind at 1. unfold lift_result at 1.
  assert (Hfail : is_ok (pick res inverse) = false).
  { apply (pick_out_of_range res inverse (index_of top u)).
    - rewrite Hinv. apply list_elem_of_fmap. exists top. split; [reflexivity|].
      apply Hmem. apply last_Some_elem_of. exact Hlast.
    - apply lookup_ge_None. rewrite (index_of_last u top Hsorted Hlast), Hloop.
      assert (Hle : (length (filter (fun i => i ∈ u) (range (top + 1)))
                     <= length (filter (fun i : Z => (0 <= i)%Z) u))%nat).
      { apply submseteq_length, NoDup_submseteq.
        - apply NoDup_filter, NoDup_seqZ.
        - intros i Hi. apply list_elem_of_filter in Hi as [Hiu Hir].
          apply elem_of_seqZ in Hir. apply list_elem_of_filter. split; [lia|auto]. }
      assert (Hlt' : (length (filter (fun i : Z => (0 <= i)%Z) u) < length u)%nat).
      { apply (length_filter_lt _ _ neg); [apply Hmem, Hneg | lia]. }
      lia. }
  destruct (pick res inverse); [discriminate|reflexivity].
Qed.

End NegativeIndex.

(** ** The registration table, further *)

Section RegistrationMore.
Import Registration.

(** X23: the table depends on the registry through the plugins "bleh" and
    "restart" only: whatever else the registry reports changes nothing. *)
Theorem other_plugins_do_not_matter (MODULES : gmap string plugin) name p :
  name <> "bleh" -> name <> "restart" ->
  NODE_CLASS_MAPPINGS (<[name := p]> MODULES) = NODE_CLASS_MAPPINGS MODULES.
Proof.
  intros Hb Hr. unfold NODE_CLASS_MAPPINGS, available.
  rewrite !lookup_insert_ne by congruence. reflexivity.
Qed.

(** X24: the wrapper node is never registered alone: whenever
    [RestartSamplerCustomNoise] is in the table, so is
    [KRestartSamplerCustomNoise]. *)
Theorem restart_wrapper_implies_restart_sampler (MODULES : gmap string plugin) :
  is_Some (NODE_CLASS_MAPPINGS MODULES !! "RestartSamplerCustomNoise") ->
  NODE_CLASS_MAPPINGS MODULES !! "KRestartSamplerCustomNoise"
  = Some KRestartSamplerCustomNoise.
Proof.
  unfold NODE_CLASS_MAPPINGS, available.
  destruct (MODULES !! "restart") as [[wrapper]|];
    [destruct wrapper|]; destruct (bool_decide _); simpl;
    intros [c Hc]; simplify_map_eq; reflexivity.
Qed.

End RegistrationMore.

Lemma generate_noise_negative_index_witness :
  is_ok (fst (CustomNOISE.generate_noise (H := Demo.env) (Runs.adapter 1)
                {| samples := Runs.image; batch_index := Some [-1; 0] |}
                Runs.fresh_world)) = false.
Proof.
  apply (generate_noise_negative_index (H := Demo.env) (Runs.adapter 1)
           {| samples := Runs.image; batch_index := Some [-1; 0] |} [-1; 0]
           Runs.fresh_world).
  - reflexivity.
  - reflexivity.
  - exists (-1). split; [left | lia].
Defined.

Lemma other_plugins_do_not_matter_witness :
  Registration.NODE_CLASS_MAPPINGS
    (<["impact" := {| Registration.has_RestartSampler := true |}]> ∅)
  = Registration.NODE_CLASS_MAPPINGS ∅.
Proof.
  apply (other_plugins_do_not_matter ∅ "impact"
           {| Registration.has_RestartSampler := true |}); discriminate.
Defined.

Lemma restart_wrapper_implies_restart_sampler_witness :
  Registration.NODE_CLASS_MAPPINGS
    {["restart" := {| Registration.has_RestartSampler := true |}]}
  !! "KRestartSamplerCustomNoise"
  = Some Registration.KRestartSamplerCustomNoise.
Proof.
  apply (restart_wrapper_implies_restart_sampler
           {["restart" := {| Registration.has_RestartSampler := true |}]}).
  vm_compute. eauto.
Defined.
